(** * news_agent: the interest -> articles -> recommendations pipeline

    A shallow embedding of [app.py] (the REPL entry point) and
    [flask_api.py] (the HTTP entry point).

    Conventions of the model.
    - A Python [str] is a list of code points below 256 ([list ascii]);
      [lower] and [strip] follow Unicode on that range.  [Wide] runs the
      extractor on one letter beyond it.
    - A Python value that travels through JSON or the pipeline state is a
      [value]; a [dict] is a [gmap] from [str] keys.
    - The two outbound calls ([requests.get] and the chat model's
      [invoke]) are answered by an [env] of oracles; every call made is
      recorded in a [trace], so that "no call was made" is a statement
      about the trace.
    - [try]/[except] is an error monad over the trace; [print] is not
      modelled.
    - [tool.invoke(x)] is modelled as the call of the decorated function
      on a [str] argument. *)

From Stdlib Require Import Ascii String List ZArith Lia Bool.
From stdpp Require Import gmap strings list fin_maps.
Import ListNotations.

Set Warnings "-register-all".

(** ** Python strings *)

Module PyStr.

Definition str := list ascii.

(** A string literal of the source. *)
Definition lit (s : string) : str := list_ascii_of_string s.

(** The empty string literal. *)
Definition empty_str : str := [].

(** [str.isspace] on one code point: TAB..CR, FS..US, SPACE, NEL, NBSP. *)
Definition is_space (c : ascii) : bool :=
  let n := nat_of_ascii c in
  ((9 <=? n) && (n <=? 13)) || ((28 <=? n) && (n <=? 32))
  || (n =? 133) || (n =? 160).

(** [str.isupper] on one code point: A..Z and the Latin-1 capitals
    (U+00C0..U+00DE without the multiplication sign U+00D7). *)
Definition is_upper (c : ascii) : bool :=
  let n := nat_of_ascii c in
  ((65 <=? n) && (n <=? 90))
  || ((192 <=? n) && (n <=? 222) && negb (n =? 215)).

Definition lower_char (c : ascii) : ascii :=
  if is_upper c then ascii_of_nat (nat_of_ascii c + 32) else c.

(** [s.lower()] *)
Definition lower (s : str) : str := map lower_char s.

(** [s.startswith(p)] *)
Fixpoint startswith (s p : str) : bool :=
  match p, s with
  | [], _ => true
  | _ :: _, [] => false
  | a :: p', b :: s' => Ascii.eqb a b && startswith s' p'
  end.

(** [sub in s] *)
Fixpoint contains (s sub : str) : bool :=
  startswith s sub
  || match s with
     | [] => false
     | _ :: s' => contains s' sub
     end.

(** The left-to-right scan of [s.replace(old, new)] for a non-empty [old]:
    [skip] counts the characters of a match that are still to be passed
    over. *)
Fixpoint replace_from (old new : str) (skip : nat) (s : str) : str :=
  match s with
  | [] => []
  | c :: s' =>
      match skip with
      | S k => replace_from old new k s'
      | O =>
          if startswith s old
          then new ++ replace_from old new (length old - 1) s'
          else c :: replace_from old new 0 s'
      end
  end.

(** [s.replace(old, new)]: every non-overlapping occurrence, leftmost
    first; an empty [old] matches before every character and at the end. *)
Definition replace (s old new : str) : str :=
  match old with
  | [] => new ++ flat_map (fun c => c :: new) s
  | _ :: _ => replace_from old new 0 s
  end.

Definition cons_to_head (c : ascii) (ps : list str) : list str :=
  match ps with
  | p :: ps' => (c :: p) :: ps'
  | [] => [[c]]
  end.

Fixpoint split_from (sep : str) (skip : nat) (s : str) : list str :=
  match s with
  | [] => [[]]
  | c :: s' =>
      match skip with
      | S k => split_from sep k s'
      | O =>
          if startswith s sep
          then [] :: split_from sep (length sep - 1) s'
          else cons_to_head c (split_from sep 0 s')
      end
  end.

(** [s.split(sep)] with an explicit separator.  Python raises
    [ValueError] on an empty separator; the source only splits on
    non-empty literals, and the model returns [[s]] there. *)
Definition split (s sep : str) : list str :=
  match sep with
  | [] => [s]
  | _ :: _ => split_from sep 0 s
  end.

(** [s.lstrip()], [s.rstrip()], [s.strip()] without argument. *)
Fixpoint lstrip (s : str) : str :=
  match s with
  | [] => []
  | c :: s' => if is_space c then lstrip s' else s
  end.

Definition rstrip (s : str) : str := rev (lstrip (rev s)).

Definition strip (s : str) : str := rstrip (lstrip s).

(** [sep.join(l)] *)
Fixpoint join (sep : str) (l : list str) : str :=
  match l with
  | [] => []
  | [x] => x
  | x :: l' => x ++ sep ++ join sep l'
  end.

(** Truth value of a string in a condition. *)
Definition nonempty (s : str) : bool :=
  match s with
  | [] => false
  | _ :: _ => true
  end.

End PyStr.

Import PyStr.

(** ** InterestExtractor ([get_user_interests], the same in both files) *)

(** The list comprehension
    [[kw.strip() for kw in input.split(",") if kw.strip()]]
    over the rewritten input. *)
Definition interest_keywords (input : str) : list str :=
  let input :=
    replace (replace (lower input) (lit "i'm interested in") empty_str)
            (lit "and") (lit ",") in
  map strip (List.filter (fun kw => nonempty (strip kw)) (split input (lit ","))).

Definition get_user_interests (input : str) : str :=
  join (lit ", ") (interest_keywords input).

(** ** Python values, exceptions and the effect monad *)

Inductive value :=
| VNone
| VBool (b : bool)
| VInt (z : Z)
| VStr (s : str)
| VList (l : list value)
| VDict (d : gmap str value).

(** Truth value of an object in a condition ([if not x]). *)
Definition truthy (v : value) : bool :=
  match v with
  | VNone => false
  | VBool b => b
  | VInt z => negb (z =? 0)%Z
  | VStr s => nonempty s
  | VList l => match l with [] => false | _ :: _ => true end
  | VDict d => match map_to_list d with [] => false | _ :: _ => true end
  end.

(** [v != s] for a string literal [s]. *)
Definition differs_from_str (v : value) (s : str) : bool :=
  match v with
  | VStr t => negb (bool_decide (t = s))
  | _ => true
  end.

(** What [requests.get] answers with when it does not raise. *)
Record response := {
  status_code : Z;
  body_json : option value   (* [None]: the body is not JSON *)
}.

(** The subclasses of [Exception] that occur; each carries its [str(e)]. *)
Inductive exn :=
| ConnectionError (msg : str)              (* requests.exceptions *)
| Timeout (msg : str)                      (* requests.exceptions *)
| HTTPError (r : response) (msg : str)     (* requests.exceptions *)
| JSONDecodeError (msg : str)              (* requests.exceptions *)
| AttributeError (msg : str)
| TypeError (msg : str)
| KeyError (msg : str)
| ValidationError (msg : str)              (* pydantic *)
| BadRequest (msg : str)                   (* werkzeug *)
| UnsupportedMediaType (msg : str)         (* werkzeug *)
| ModelError (msg : str).                  (* anything the chat model raises *)

(** [str(e)] *)
Definition exn_str (e : exn) : str :=
  match e with
  | ConnectionError m | Timeout m | HTTPError _ m | JSONDecodeError m
  | AttributeError m | TypeError m | KeyError m | ValidationError m
  | BadRequest m | UnsupportedMediaType m | ModelError m => m
  end.

(** [isinstance(e, requests.exceptions.RequestException)] *)
Definition is_RequestException (e : exn) : bool :=
  match e with
  | ConnectionError _ | Timeout _ | HTTPError _ _ | JSONDecodeError _ => true
  | _ => false
  end.

(** [isinstance(e, requests.exceptions.HTTPError)] *)
Definition is_HTTPError (e : exn) : bool :=
  match e with
  | HTTPError _ _ => true
  | _ => false
  end.

Inductive outcome (A : Type) :=
| Return (a : A)
| Raise (e : exn).
Arguments Return {A} a.
Arguments Raise {A} e.

(** The GET that is sent: url, query parameters and timeout. *)
Record http_get := {
  get_url : str;
  param_apikey : str;
  param_q : str;
  param_language : str;
  param_size : Z;
  get_timeout : Z
}.

(** The calls a run has made, latest last. *)
Record trace := {
  http_calls : list http_get;
  model_calls : list str;
  graph_calls : list (gmap str value)
}.

Definition no_calls : trace :=
  {| http_calls := []; model_calls := []; graph_calls := [] |}.

(** The outside world of one process. *)
Record env := {
  NEWS_API_KEY : str;
  GOOGLE_API_KEY : str;
  (** [requests.get]: a network-level failure or a response *)
  requests_get : http_get -> outcome response;
  (** [ChatGoogleGenerativeAI(...)] *)
  model_new : outcome unit;
  (** [model.invoke(prompt)]: the content of the answer, or the error *)
  model_invoke : str -> outcome str;
  (** [str(v)] as an f-string renders a value that is not a [str] *)
  format_other : value -> str
}.

Definition M (A : Type) : Type := trace -> outcome A * trace.

#[global] Instance M_ret : MRet M := fun A a t => (Return a, t).

#[global] Instance M_bind : MBind M := fun A B k m t =>
  match m t with
  | (Return a, t') => k a t'
  | (Raise e, t') => (Raise e, t')
  end.

Definition raise {A} (e : exn) : M A := fun t => (Raise e, t).

Definition lift {A} (o : outcome A) : M A := fun t => (o, t).

(** [try: body  except Exception as e: handler e] *)
Definition try_except {A} (body : M A) (handler : exn -> M A) : M A :=
  fun t =>
    match body t with
    | (Return a, t') => (Return a, t')
    | (Raise e, t') => handler e t'
    end.

Definition add_http (r : http_get) (t : trace) : trace :=
  {| http_calls := http_calls t ++ [r];
     model_calls := model_calls t;
     graph_calls := graph_calls t |}.

Definition add_model (p : str) (t : trace) : trace :=
  {| http_calls := http_calls t;
     model_calls := model_calls t ++ [p];
     graph_calls := graph_calls t |}.

Definition add_graph (s : gmap str value) (t : trace) : trace :=
  {| http_calls := http_calls t;
     model_calls := model_calls t;
     graph_calls := graph_calls t ++ [s] |}.

Definition log_http (r : http_get) : M unit := fun t => (Return tt, add_http r t).

Definition log_model (p : str) : M unit := fun t => (Return tt, add_model p t).

Definition log_graph (s : gmap str value) : M unit := fun t => (Return tt, add_graph s t).

(** Whatever it returns or raises, [m] changes the trace by [f]. *)
Definition trace_effect {A} (m : M A) (f : trace -> trace) : Prop :=
  forall t, snd (m t) = f t.

(** [m] makes no call. *)
Definition quiet {A} (m : M A) : Prop := trace_effect m (fun t => t).

(** ** Operations shared by the two entry points *)

(** A client or server error status, 400 to 599. *)
Definition is_error_status (r : response) : bool :=
  ((400 <=? status_code r) && (status_code r <? 600))%Z.

(** [response.raise_for_status()]: raises for 4xx and 5xx only. *)
Definition raise_for_status (r : response) : M unit :=
  if is_error_status r
  then raise (HTTPError r (lit "HTTP error for url"))
  else mret tt.

(** [response.json()] *)
Definition response_json (r : response) : M value :=
  match body_json r with
  | Some v => mret v
  | None => raise (JSONDecodeError (lit "Expecting value"))
  end.

(** [type(v).__name__] *)
Definition type_name (v : value) : str :=
  match v with
  | VNone => lit "NoneType"
  | VBool _ => lit "bool"
  | VInt _ => lit "int"
  | VStr _ => lit "str"
  | VList _ => lit "list"
  | VDict _ => lit "dict"
  end.

(** [data.get(key)]: [None] for an absent key, [AttributeError] when
    [data] is not a dict. *)
Definition get (data : value) (key : str) : M value :=
  match data with
  | VDict d => mret (default VNone (d !! key))
  | _ => raise (AttributeError
                  (lit "'" ++ type_name data ++ lit "' object has no attribute 'get'"))
  end.

(** [data.get(key, dflt)] *)
Definition get_default (data : value) (key : str) (dflt : value) : M value :=
  match data with
  | VDict d => mret (default dflt (d !! key))
  | _ => raise (AttributeError
                  (lit "'" ++ type_name data ++ lit "' object has no attribute 'get'"))
  end.

(** [len(v)] *)
Definition len (v : value) : M nat :=
  match v with
  | VStr s => mret (length s)
  | VList l => mret (length l)
  | VDict d => mret (size d)
  | _ => raise (TypeError
                  (lit "object of type '" ++ type_name v ++ lit "' has no len()"))
  end.

(** [state[key]]; [str] of a [KeyError] is the key in quotes. *)
Definition subscript (state : gmap str value) (key : str) : M value :=
  match state !! key with
  | Some v => mret v
  | None => raise (KeyError (lit "'" ++ key ++ lit "'"))
  end.

(** The argument check of a tool that takes one [str]. *)
Definition str_argument (v : value) : M str :=
  match v with
  | VStr s => mret s
  | _ => raise (ValidationError (lit "Input should be a valid string"))
  end.

(** How an f-string renders a value. *)
Definition format (E : env) (v : value) : str :=
  match v with
  | VStr s => s
  | _ => format_other E v
  end.

(** [requests.get(url, params=params, timeout=timeout)] *)
Definition requests_get_call (E : env) (r : http_get) : M response :=
  _ ← log_http r; lift (requests_get E r).

(** [model = ChatGoogleGenerativeAI(...)] followed later by
    [model.invoke(prompt)]. *)
Definition model_invoke_call (E : env) (prompt : str) : M str :=
  _ ← log_model prompt; lift (model_invoke E prompt).

Fixpoint as_dicts (l : list value) : option (list (gmap str value)) :=
  match l with
  | [] => Some []
  | VDict d :: l' => option_map (cons d) (as_dicts l')
  | _ :: _ => None
  end.

(** The pydantic model with [articles: List[Dict[str, Any]]] and
    [interests: str] ([RankArticlesInput], [RankInput]). *)
Record RankInput := {
  articles : list (gmap str value);
  interests : str
}.

(** The constructor of the pydantic model validates its arguments. *)
Definition RankInput_new (arts ints : value) : M RankInput :=
  match arts, ints with
  | VList l, VStr s =>
      match as_dicts l with
      | Some ds => mret {| articles := ds; interests := s |}
      | None => raise (ValidationError (lit "Input should be a valid dictionary"))
      end
  | VList _, _ => raise (ValidationError (lit "Input should be a valid string"))
  | _, _ => raise (ValidationError (lit "Input should be a valid list"))
  end.

(** One step of the compiled graph: the node's partial update is merged
    into the state, its keys replacing the state's. *)
Definition run_node (node : gmap str value -> M (gmap str value))
    (state : gmap str value) : M (gmap str value) :=
  update ← node state; mret (update ∪ state).

Definition nl : str := [ascii_of_nat 10].

Fixpoint for_each {A B} (f : A -> M B) (l : list A) : M (list B) :=
  match l with
  | [] => mret []
  | x :: l' => y ← f x; ys ← for_each f l'; mret (y :: ys)
  end.

(** ** app.py *)

Module App.

Definition fetch_news_articles (E : env) (interests : str) : M value :=
  try_except
    (let keywords := map strip (split interests (lit ",")) in
     let query := join (lit " ") keywords in
     let url := lit "https://newsdata.io/api/1/news" in
     response ← requests_get_call E
       {| get_url := url; param_apikey := NEWS_API_KEY E; param_q := query;
          param_language := lit "en"; param_size := 5; get_timeout := 10 |};
     _ ← raise_for_status response;
     data ← response_json response;
     status ← get data (lit "status");
     if differs_from_str status (lit "success")
     then mret (VList [])
     else get_default data (lit "results") (VList []))
    (fun e =>
       if is_RequestException e then mret (VList []) else mret (VList [])).

Definition article_text (E : env) (art : gmap str value) : str :=
  lit "Title: " ++ format E (default (VStr (lit "No title")) (art !! lit "title")) ++ nl
  ++ lit "Source: " ++ format E (default (VStr (lit "Unknown source")) (art !! lit "source_id")) ++ nl
  ++ lit "Description: " ++ format E (default (VStr (lit "No description")) (art !! lit "description")) ++ nl
  ++ lit "Published: " ++ format E (default (VStr (lit "Unknown date")) (art !! lit "pubDate")) ++ nl
  ++ lit "Link: " ++ format E (default (VStr (lit "No URL")) (art !! lit "link")).

Definition prompt_of (interests articles_text : str) : str :=
  nl ++ lit "**User Interests**: " ++ interests ++ nl ++ nl
  ++ lit "**Task**: From these news articles, select the 3-5 most relevant ones and provide:" ++ nl
  ++ lit "1. A concise summary of each" ++ nl
  ++ lit "2. Why it might interest the user" ++ nl
  ++ lit "3. The publication date and source" ++ nl ++ nl
  ++ lit "**Articles**:" ++ nl
  ++ articles_text ++ nl ++ nl
  ++ lit "**Format your response as markdown with clear headings for each article**" ++ nl.

Definition no_articles_message : str :=
  lit "No recent articles found matching your interests.".

Definition failure_message : str :=
  lit "I couldn't generate recommendations due to a technical issue.".

Definition rank_articles (E : env) (input_data : RankInput) : M str :=
  try_except
    (match articles input_data with
     | [] => mret no_articles_message
     | _ :: _ =>
         _ ← lift (model_new E);
         let articles_text :=
           join (nl ++ nl) (map (article_text E) (take 10 (articles input_data))) in
         let prompt := prompt_of (interests input_data) articles_text in
         model_invoke_call E prompt
     end)
    (fun e => mret failure_message).

Definition extract_interests_node (state : gmap str value) : M (gmap str value) :=
  v ← subscript state (lit "interests");
  input ← str_argument v;
  let interests := get_user_interests input in
  mret {[ lit "interests" := VStr interests ]}.

Definition fetch_articles_node (E : env) (state : gmap str value) : M (gmap str value) :=
  v ← subscript state (lit "interests");
  interests ← str_argument v;
  articles ← fetch_news_articles E interests;
  _ ← len articles;   (* the f-string of the print evaluates len(articles) *)
  mret {[ lit "articles" := articles ]}.

Definition rank_node (E : env) (state : gmap str value) : M (gmap str value) :=
  arts ← subscript state (lit "articles");
  ints ← subscript state (lit "interests");
  input_data ← RankInput_new arts ints;
  ranked ← rank_articles E input_data;
  mret {[ lit "recommendations" := VStr ranked ]}.

(** [news_recommender.invoke(input)]: extract_interests, fetch_articles,
    rank, END. *)
Definition news_recommender_invoke (E : env) (input : gmap str value)
    : M (gmap str value) :=
  _ ← log_graph input;
  state ← run_node extract_interests_node input;
  state ← run_node (fetch_articles_node E) state;
  run_node (rank_node E) state.

End App.

(** ** flask_api.py *)

Module FlaskApi.

Definition fetch_news_articles (E : env) (interests : str) : M value :=
  try_except
    (let keywords := map strip (split interests (lit ",")) in
     let query := join (lit " ") (take 3 keywords) in
     response ← requests_get_call E
       {| get_url := lit "https://newsdata.io/api/1/news";
          param_apikey := NEWS_API_KEY E; param_q := query;
          param_language := lit "en"; param_size := 5; get_timeout := 10 |};
     _ ← raise_for_status response;
     data ← response_json response;
     articles ← get_default data (lit "results") (VList []);
     _ ← len articles;   (* the f-string of the print evaluates len(articles) *)
     mret articles)
    (fun e =>
       if is_HTTPError e then mret (VList [])
       else if is_RequestException e then mret (VList [])
       else mret (VList [])).

(** [v[:200]]: a slice of a string or a list; a dict cannot be indexed by
    a slice, and null, booleans and numbers cannot be indexed at all. *)
Definition slice_200 (v : value) : M value :=
  match v with
  | VStr s => mret (VStr (take 200 s))
  | VList l => mret (VList (take 200 l))
  | VDict _ => raise (TypeError (lit "unhashable type: 'slice'"))
  | _ => raise (TypeError (lit "'" ++ type_name v ++ lit "' object is not subscriptable"))
  end.

Definition article_text (E : env) (art : gmap str value) : M str :=
  description ← slice_200 (default (VStr empty_str) (art !! lit "description"));
  mret (lit "Title: " ++ format E (default (VStr (lit "No title")) (art !! lit "title")) ++ nl
        ++ lit "Source: " ++ format E (default (VStr (lit "Unknown")) (art !! lit "source_id")) ++ nl
        ++ lit "Description: " ++ format E description ++ lit "...").

Definition prompt_of (interests articles_text : str) : str :=
  nl ++ lit "**User Interests**: " ++ interests ++ nl ++ nl
  ++ lit "**Task**: Select the 3 most relevant articles and provide:" ++ nl
  ++ lit "1. A concise summary" ++ nl
  ++ lit "2. Why it might interest the user" ++ nl
  ++ lit "3. The source" ++ nl ++ nl
  ++ lit "**Articles**:" ++ nl
  ++ articles_text ++ nl ++ nl
  ++ lit "**Format as markdown**".

Definition no_articles_message : str :=
  lit "No articles found matching your interests.".

Definition failure_message (e : exn) : str :=
  lit "Failed to generate recommendations due to: " ++ exn_str e.

Definition rank_articles (E : env) (input_data : RankInput) : M str :=
  try_except
    (match articles input_data with
     | [] => mret no_articles_message
     | _ :: _ =>
         _ ← lift (model_new E);
         texts ← for_each (article_text E) (take 5 (articles input_data));
         let articles_text := join (nl ++ nl) texts in
         let prompt := prompt_of (interests input_data) articles_text in
         model_invoke_call E prompt
     end)
    (fun e => mret (failure_message e)).

Definition extract_interests_node (state : gmap str value) : M (gmap str value) :=
  v ← subscript state (lit "interests");
  input ← str_argument v;
  let interests := get_user_interests input in
  mret {[ lit "interests" := VStr interests ]}.

Definition fetch_articles_node (E : env) (state : gmap str value) : M (gmap str value) :=
  v ← subscript state (lit "interests");
  interests ← str_argument v;
  articles ← fetch_news_articles E interests;
  mret {[ lit "articles" := articles ]}.

Definition rank_node (E : env) (state : gmap str value) : M (gmap str value) :=
  try_except
    (arts ← subscript state (lit "articles");
     ints ← subscript state (lit "interests");
     input_data ← RankInput_new arts ints;
     ranked ← rank_articles E input_data;
     mret {[ lit "recommendations" := VStr ranked ]})
    (fun e => mret {[ lit "recommendations" := VStr (failure_message e) ]}).

(** [app_graph.invoke(input)]: extract_interests, fetch_articles, rank, END. *)
Definition app_graph_invoke (E : env) (input : gmap str value)
    : M (gmap str value) :=
  _ ← log_graph input;
  state ← run_node extract_interests_node input;
  state ← run_node (fetch_articles_node E) state;
  run_node (rank_node E) state.

(** What [request.get_json()] meets. *)
Inductive request :=
| JsonBody (v : value)      (* a JSON content type and a JSON body *)
| MalformedBody             (* a JSON content type, the body is not JSON *)
| OtherContentType.         (* no JSON content type *)

(** [request.get_json()]: a body that does not parse raises [BadRequest],
    a content type that is not JSON raises [UnsupportedMediaType]; JSON
    [null] is [None]. *)
Definition get_json (r : request) : M value :=
  match r with
  | JsonBody v => mret v
  | MalformedBody =>
      raise (BadRequest (lit "400 Bad Request: Failed to decode JSON object"))
  | OtherContentType =>
      raise (UnsupportedMediaType (lit "415 Unsupported Media Type"))
  end.

(** [jsonify({key: text})] *)
Definition jsonify (key text : str) : value := VDict {[ key := VStr text ]}.

(** The handler of POST /recommend: the JSON body answered and the status. *)
Definition recommend (E : env) (r : request) : M (value * Z) :=
  try_except
    (data ← get_json r;
     topic ← get data (lit "topic");
     if negb (truthy topic)
     then mret (jsonify (lit "error") (lit "Missing required field: topic"), 400%Z)
     else
       result ← app_graph_invoke E {[ lit "interests" := topic ]};
       let text :=
         default (VStr (lit "No recommendations available"))
                 (result !! lit "recommendations") in
       mret (VDict {[ lit "recommendations" := text ]}, 200%Z))
    (fun e => mret (jsonify (lit "error") (exn_str e), 500%Z)).

End FlaskApi.

(** ** The extractor as the specification words it *)

Module Spec.

(** Replace every occurrence of [old] (not empty), leftmost first, cutting
    each occurrence out of the text; [fuel] bounds the length of the text. *)
Fixpoint replace_every (fuel : nat) (old new s : str) : str :=
  match fuel with
  | O => s
  | S fuel' =>
      match s with
      | [] => []
      | c :: s' =>
          if startswith s old
          then new ++ replace_every fuel' old new (drop (length old) s)
          else c :: replace_every fuel' old new s'
      end
  end.

Definition remove_phrase (s : str) : str :=
  replace_every (length s) (lit "i'm interested in") [] s.

Definition and_to_comma (s : str) : str :=
  replace_every (length s) (lit "and") (lit ",") s.

(** Cut the text at every comma. *)
Definition split_on_comma (s : str) : list str :=
  fold_right
    (fun c pieces =>
       if Ascii.eqb c ","%char then [] :: pieces else cons_to_head c pieces)
    [[]] s.

(** lower-case; remove the phrase; "and" to comma; split on comma; trim
    each piece; drop the empty pieces; rejoin with ", ". *)
Definition interest_extractor (input : str) : str :=
  let pieces := split_on_comma (and_to_comma (remove_phrase (lower input))) in
  let trimmed := map strip pieces in
  let kept := List.filter nonempty trimmed in
  join (lit ", ") kept.

End Spec.

(** ** The extractor over a wider alphabet

    The code of [get_user_interests] once more, written over any type of
    characters, and an alphabet that adds to the code points below 256 the
    letter U+2102 (DOUBLE-STRUCK CAPITAL C): a capital letter
    ([str.isupper] holds) that [str.lower] leaves as it is, and that is
    not whitespace. *)

Module Wide.

Section Generic.

Context {C : Type}.
Variable eqb : C -> C -> bool.
Variable is_space : C -> bool.
Variable lower_char : C -> C.
Variable of_ascii : ascii -> C.

Definition lit (s : string) : list C := map of_ascii (list_ascii_of_string s).

Definition lower (s : list C) : list C := map lower_char s.

Fixpoint startswith (s p : list C) : bool :=
  match p, s with
  | [], _ => true
  | _ :: _, [] => false
  | a :: p', b :: s' => eqb a b && startswith s' p'
  end.

Fixpoint replace_from (old new : list C) (skip : nat) (s : list C) : list C :=
  match s with
  | [] => []
  | c :: s' =>
      match skip with
      | S k => replace_from old new k s'
      | O =>
          if startswith s old
          then new ++ replace_from old new (length old - 1) s'
          else c :: replace_from old new 0 s'
      end
  end.

Definition replace (s old new : list C) : list C :=
  match old with
  | [] => new ++ flat_map (fun c => c :: new) s
  | _ :: _ => replace_from old new 0 s
  end.

Definition cons_to_head (c : C) (ps : list (list C)) : list (list C) :=
  match ps with
  | p :: ps' => (c :: p) :: ps'
  | [] => [[c]]
  end.

Fixpoint split_from (sep : list C) (skip : nat) (s : list C) : list (list C) :=
  match s with
  | [] => [[]]
  | c :: s' =>
      match skip with
      | S k => split_from sep k s'
      | O =>
          if startswith s sep
          then [] :: split_from sep (length sep - 1) s'
          else cons_to_head c (split_from sep 0 s')
      end
  end.

Definition split (s sep : list C) : list (list C) :=
  match sep with
  | [] => [s]
  | _ :: _ => split_from sep 0 s
  end.

Fixpoint lstrip (s : list C) : list C :=
  match s with
  | [] => []
  | c :: s' => if is_space c then lstrip s' else s
  end.

Definition rstrip (s : list C) : list C := rev (lstrip (rev s)).

Definition strip (s : list C) : list C := rstrip (lstrip s).

Fixpoint join (sep : list C) (l : list (list C)) : list C :=
  match l with
  | [] => []
  | [x] => x
  | x :: l' => x ++ sep ++ join sep l'
  end.

Definition nonempty (s : list C) : bool :=
  match s with
  | [] => false
  | _ :: _ => true
  end.

Definition get_user_interests (input : list C) : list C :=
  let input :=
    replace (replace (lower input) (lit "i'm interested in") [])
            (lit "and") (lit ",") in
  join (lit ", ")
       (map strip (List.filter (fun kw => nonempty (strip kw)) (split input (lit ",")))).

End Generic.

Inductive char :=
| Latin (a : ascii)       (* a code point below 256 *)
| DoubleStruckC.          (* U+2102 *)






End Wide.

(** ** Normal forms of keyword strings *)

(** No capital letter. *)
Definition lowercase (s : str) : bool :=
  forallb (fun c => negb (is_upper c)) s.

Definition comma_free (s : str) : bool :=
  forallb (fun c => negb (Ascii.eqb c ","%char)) s.

Definition starts_clean (s : str) : bool :=
  match s with
  | [] => true
  | c :: _ => negb (is_space c)
  end.

(** Neither the first nor the last character is whitespace. *)
Definition no_outer_space (s : str) : bool :=
  starts_clean s && starts_clean (rev s).

(** A keyword as the extractor emits it. *)
Definition keyword_ok (k : str) : bool :=
  nonempty k && no_outer_space k && comma_free k.

(** The ", "-separated components of a keyword string; the empty string
    lists no keyword. *)
Definition components (s : str) : list str :=
  match s with
  | [] => []
  | _ :: _ => split s (lit ", ")
  end.

(** An already-clean comma-joined lower-case keyword string: lower-case,
    free of the two rewritten phrases, and cut by ", " into keywords. *)
Definition is_clean (s : str) : bool :=
  bool_decide (lower s = s)
  && negb (contains s (lit "i'm interested in"))
  && negb (contains s (lit "and"))
  && forallb keyword_ok (components s).

(** The input of [get_user_interests] after [lower] and the two
    [replace] calls. *)
Definition rewritten (input : str) : str :=
  replace (replace (lower input) (lit "i'm interested in") empty_str)
          (lit "and") (lit ",").

(** The query parameter of the last GET of a trace. *)
Definition last_query (t : trace) : option str :=
  param_q <$> last (http_calls t).

(** [p] occurs in [s] as a contiguous part. *)
Definition infix (p s : str) : Prop := exists l r, s = l ++ p ++ r.

(** [x] does not occur among the characters of [p]. *)
Definition avoids (x : ascii) (p : str) : bool :=
  forallb (fun a => negb (Ascii.eqb a x)) p.

(** The GET that a fetch sends for a query. *)
Definition search_request (E : env) (query : str) : http_get :=
  {| get_url := lit "https://newsdata.io/api/1/news";
     param_apikey := NEWS_API_KEY E; param_q := query;
     param_language := lit "en"; param_size := 5; get_timeout := 10 |}.

(** A keyword of a comma-joined keyword string: trimmed and comma-free. *)
Definition keyword_shape (k : str) : bool := no_outer_space k && comma_free k.

(** The body of the request is a JSON object. *)
Definition is_json_object (r : FlaskApi.request) : bool :=
  match r with
  | FlaskApi.JsonBody (VDict _) => true
  | _ => false
  end.



(** The body is a JSON object whose "status" is not "success". *)
Definition soft_failure (r : response) : bool :=
  match body_json r with
  | Some (VDict d) => differs_from_str (default VNone (d !! lit "status")) (lit "success")
  | _ => false
  end.

(** The search failed: at the network level, by an error status, or by
    a status field other than the success marker. *)
Definition search_failed (o : outcome response) : bool :=
  match o with
  | Raise _ => true
  | Return r => is_error_status r || soft_failure r
  end.

(** The search failed at the network level or by an error status. *)
Definition search_failed_hard (o : outcome response) : bool :=
  match o with
  | Raise _ => true
  | Return r => is_error_status r
  end.

(** The queries of the two entry points. *)
Definition app_query (interests : str) : str :=
  join (lit " ") (map strip (split interests (lit ","))).

Definition flask_query (interests : str) : str :=
  join (lit " ") (take 3 (map strip (split interests (lit ",")))).


(** ** Sample worlds for the concrete runs *)

Definition sample_article_dict : gmap str value :=
  {[ lit "title" := VStr (lit "t") ]}.

Definition sample_article : value := VDict sample_article_dict.

Definition sample_input : RankInput :=
  {| articles := [sample_article_dict]; interests := lit "ai" |}.

Definition sample_topic : gmap str value :=
  {[ lit "interests" := VStr (lit "AI and space") ]}.

(** The search API answers 200 with an error status and a results list. *)
Definition env_soft_failure : env :=
  {| NEWS_API_KEY := lit "k"; GOOGLE_API_KEY := lit "g";
     requests_get := fun _ =>
       Return {| status_code := 200;
                 body_json := Some (VDict {[ lit "status" := VStr (lit "error");
                                             lit "results" := VList [sample_article] ]}) |};
     model_new := Return tt;
     model_invoke := fun _ => Raise (ModelError (lit "quota exceeded"));
     format_other := fun _ => lit "?" |}.

(** The search API answers 503. *)
Definition env_unavailable : env :=
  {| NEWS_API_KEY := lit "k"; GOOGLE_API_KEY := lit "g";
     requests_get := fun _ => Return {| status_code := 503; body_json := None |};
     model_new := Return tt;
     model_invoke := fun _ => Return (lit "## pick");
     format_other := fun _ => lit "?" |}.

(** The search API answers 200 with a success status and one article; the
    model answers. *)
Definition env_ok : env :=
  {| NEWS_API_KEY := lit "k"; GOOGLE_API_KEY := lit "g";
     requests_get := fun _ =>
       Return {| status_code := 200;
                 body_json := Some (VDict {[ lit "status" := VStr (lit "success");
                                             lit "results" := VList [sample_article] ]}) |};
     model_new := Return tt;
     model_invoke := fun _ => Return (lit "## pick");
     format_other := fun _ => lit "?" |}.

(** ** Definitions for the further properties *)

(** A keyword that the rewriting leaves alone: well-formed, lower-case,
    and free of "and" and of "i'm interested in". *)
Definition plain_keyword (k : str) : bool :=
  keyword_ok k && lowercase k
  && negb (contains k (lit "and")) && negb (contains k (lit "i'm interested in")).

(** [len(v)] is defined: [v] is a string, a list or a dict. *)
Definition sized (v : value) : bool :=
  match v with
  | VStr _ | VList _ | VDict _ => true
  | _ => false
  end.

(** The parsed body is missing or is not a JSON object. *)
Definition no_object (body : option value) : bool :=
  match body with
  | Some (VDict _) => false
  | _ => true
  end.

(** [v[:200]] raises: [v] is null, a boolean or a number. *)
Definition unsliceable (v : value) : bool :=
  match v with
  | VNone | VBool _ | VInt _ => true
  | _ => false
  end.

(** [str(e)] of the [TypeError] that [v[:200]] raises for such a [v]. *)
Definition not_subscriptable (v : value) : str :=
  lit "'" ++ type_name v ++ lit "' object is not subscriptable".

(** [v[:200]] is defined: [v] is a string or a list. *)
Definition sliceable (v : value) : bool :=
  match v with
  | VStr _ | VList _ => true
  | _ => false
  end.

(** [art.get('description', '')] *)
Definition description_of (art : gmap str value) : value :=
  default (VStr empty_str) (art !! lit "description").

(** The first description, in the order of the articles, that cannot be
    sliced. *)
Fixpoint first_unsliceable (arts : list (gmap str value)) : option value :=
  match arts with
  | [] => None
  | art :: arts' =>
      if sliceable (description_of art) then first_unsliceable arts'
      else Some (description_of art)
  end.

(** The prompts that the two rankers build. *)
Definition app_prompt (E : env) (input : RankInput) : str :=
  App.prompt_of (interests input)
    (join (nl ++ nl) (map (App.article_text E) (take 10 (articles input)))).

Definition flask_prompt (input : RankInput) (texts : list str) : str :=
  FlaskApi.prompt_of (interests input) (join (nl ++ nl) texts).

(** The article with its "description", when that is a string, cut to
    its first 200 characters. *)
Definition truncate_description (art : gmap str value) : gmap str value :=
  match art !! lit "description" with
  | Some (VStr d) => <[ lit "description" := VStr (take 200 d) ]> art
  | _ => art
  end.

(** * Facts about the string operations *)

#[global] Arguments Ascii.eqb : simpl never.

Section StringFacts.

Implicit Types (s p old new sep sub : str) (c x : ascii).

Lemma startswith_nil s : startswith s [] = true.
Proof. destruct s; reflexivity. Qed.

Lemma startswith_app p r : startswith (p ++ r) p = true.
Proof.
  induction p as [|a p IH]; simpl; [apply startswith_nil|].
  rewrite Ascii.eqb_refl. exact IH.
Qed.

Lemma startswith_inv s p : startswith s p = true -> s = p ++ drop (length p) s.
Proof.
  revert s. induction p as [|a p IH]; intros s H; [reflexivity|].
  destruct s as [|b s]; simpl in H; [discriminate|].
  apply andb_true_iff in H as [Hab Hs]. apply Ascii.eqb_eq in Hab. subst b.
  simpl. f_equal. apply IH, Hs.
Qed.

Lemma startswith_length s p : startswith s p = true -> length p <= length s.
Proof.
  intros H. apply startswith_inv in H.
  rewrite H, length_app. lia.
Qed.

Lemma replace_from_skip old new k s :
  replace_from old new k s = replace_from old new 0 (drop k s).
Proof.
  revert k. induction s as [|c s IH]; intros k.
  - destruct k; reflexivity.
  - destruct k as [|k]; [reflexivity|]. simpl. apply IH.
Qed.

Lemma split_from_skip sep k s :
  split_from sep k s = split_from sep 0 (drop k s).
Proof.
  revert k. induction s as [|c s IH]; intros k.
  - destruct k; reflexivity.
  - destruct k as [|k]; [reflexivity|]. simpl. apply IH.
Qed.

(** The two equations of [replace] on a non-empty pattern. *)
Lemma replace_match s old new :
  old <> [] -> startswith s old = true -> s <> [] ->
  replace s old new = new ++ replace (drop (length old) s) old new.
Proof.
  intros Hold Hs Hne. destruct old as [|a old]; [congruence|].
  destruct s as [|c s]; [congruence|].
  unfold replace. cbn [replace_from]. rewrite Hs.
  rewrite replace_from_skip. simpl. now rewrite Nat.sub_0_r.
Qed.

Lemma replace_step c s old new :
  old <> [] -> startswith (c :: s) old = false ->
  replace (c :: s) old new = c :: replace s old new.
Proof.
  intros Hold Hs. destruct old as [|a old]; [congruence|].
  unfold replace. cbn [replace_from]. now rewrite Hs.
Qed.

Lemma replace_empty old new : old <> [] -> replace [] old new = [].
Proof. destruct old; [congruence|reflexivity]. Qed.

(** The two equations of [split]. *)
Lemma split_match s sep :
  sep <> [] -> startswith s sep = true -> s <> [] ->
  split s sep = [] :: split (drop (length sep) s) sep.
Proof.
  intros Hsep Hs Hne. destruct sep as [|a sep]; [congruence|].
  destruct s as [|c s]; [congruence|].
  unfold split. cbn [split_from]. rewrite Hs.
  rewrite split_from_skip. simpl. now rewrite Nat.sub_0_r.
Qed.

Lemma split_step c s sep :
  sep <> [] -> startswith (c :: s) sep = false ->
  split (c :: s) sep = cons_to_head c (split s sep).
Proof.
  intros Hsep Hs. destruct sep as [|a sep]; [congruence|].
  unfold split. cbn [split_from]. now rewrite Hs.
Qed.

Lemma split_empty sep : split [] sep = [[]].
Proof. destruct sep; reflexivity. Qed.

Lemma split_not_nil s sep : split s sep <> [].
Proof.
  destruct sep as [|a sep]; [discriminate|]. unfold split.
  generalize 0. induction s as [|c s IH]; intros k; [discriminate|].
  cbn [split_from]. destruct k; [|apply IH].
  destruct (startswith _ _); [discriminate|].
  destruct (split_from (a :: sep) 0 s); discriminate.
Qed.

(** Strong induction on the length of a string. *)
Lemma str_length_ind (P : str -> Prop) :
  (forall s, (forall s', length s' < length s -> P s') -> P s) ->
  forall s, P s.
Proof.
  intros step s. remember (length s) as n eqn:Hn.
  revert s Hn. induction n as [n IH] using lt_wf_ind.
  intros s ->. apply step. intros s' Hlt. now apply (IH (length s')).
Qed.

Lemma length_drop_pattern s old :
  old <> [] -> s <> [] -> length (drop (length old) s) < length s.
Proof.
  intros Hold Hs. rewrite length_drop.
  destruct old; [congruence|]. destruct s; [congruence|]. simpl. lia.
Qed.

End StringFacts.

(** The operations on the inputs that the Python documentation and the
    specification's scenarios give. *)
Example split_multi : split (lit "a, b,,c") (lit ", ") = [lit "a"; lit "b,,c"].
Proof. reflexivity. Qed.

Example split_of_empty : split empty_str (lit ",") = [empty_str].
Proof. reflexivity. Qed.

Example split_of_separator : split (lit ",") (lit ",") = [empty_str; empty_str].
Proof. reflexivity. Qed.

Example replace_leftmost : replace (lit "aXXXb") (lit "XX") (lit "-") = lit "a-Xb".
Proof. reflexivity. Qed.

Example replace_empty_pattern : replace (lit "abc") empty_str (lit "-") = lit "-a-b-c-".
Proof. reflexivity. Qed.

Example strip_both_ends : strip (" "%char :: lit " a b " ++ [ascii_of_nat 9]) = lit "a b".
Proof. reflexivity. Qed.

Example lower_mixed : lower (lit "I'M Fine") = lit "i'm fine".
Proof. reflexivity. Qed.

Example join_two : join (lit ", ") [lit "a"; lit "b"] = lit "a, b".
Proof. reflexivity. Qed.

Example extract_scenario :
  get_user_interests (lit "I'm interested in technology and space")
  = lit "technology, space".
Proof. vm_compute. reflexivity. Qed.

Example extract_empty : get_user_interests empty_str = empty_str.
Proof. reflexivity. Qed.

(** * The extractor against its specification *)

Section ExtractorRefinement.

Implicit Types (s old new : str) (c x : ascii).

Lemma replace_every_correct fuel old new s :
  old <> [] -> length s <= fuel ->
  Spec.replace_every fuel old new s = replace s old new.
Proof.
  intros Hold. revert s.
  induction fuel as [|fuel IH]; intros s Hlen.
  - destruct s; [|simpl in Hlen; lia]. now rewrite replace_empty.
  - destruct s as [|c s]; [now rewrite replace_empty|].
    cbn [Spec.replace_every].
    destruct (startswith (c :: s) old) eqn:Hs.
    + rewrite replace_match by (auto; discriminate). f_equal.
      apply IH.
      pose proof (length_drop_pattern (c :: s) old Hold ltac:(discriminate)).
      lia.
    + rewrite replace_step by auto. f_equal. apply IH. simpl in Hlen. lia.
Qed.

Lemma split_char_cons c s x :
  split (c :: s) [x] =
  if Ascii.eqb c x then [] :: split s [x] else cons_to_head c (split s [x]).
Proof.
  destruct (Ascii.eqb c x) eqn:Hc.
  - apply Ascii.eqb_eq in Hc. subst x.
    rewrite split_match; [reflexivity|discriminate| |discriminate].
    simpl. now rewrite Ascii.eqb_refl, startswith_nil.
  - apply split_step; [discriminate|].
    simpl. rewrite Ascii.eqb_sym, Hc. reflexivity.
Qed.

Lemma split_on_comma_correct s : Spec.split_on_comma s = split s (lit ",").
Proof.
  induction s as [|c s IH]; [reflexivity|].
  change (lit ",") with [","%char] in *.
  rewrite split_char_cons. unfold Spec.split_on_comma in *.
  cbn [fold_right]. now rewrite IH.
Qed.

Lemma filter_map_comm {A B} (f : A -> B) (keep : B -> bool) (l : list A) :
  map f (List.filter (fun a => keep (f a)) l) = List.filter keep (map f l).
Proof.
  induction l as [|a l IH]; [reflexivity|].
  simpl. destruct (keep (f a)); simpl; now rewrite IH.
Qed.

Lemma lower_length s : length (lower s) = length s.
Proof. apply length_map. Qed.

Lemma remove_phrase_correct s :
  Spec.remove_phrase s = replace s (lit "i'm interested in") empty_str.
Proof. apply replace_every_correct; [discriminate|lia]. Qed.

Lemma and_to_comma_correct s :
  Spec.and_to_comma s = replace s (lit "and") (lit ",").
Proof. apply replace_every_correct; [discriminate|lia]. Qed.

End ExtractorRefinement.

(** * Occurrences, pieces and joins *)

Section Occurrences.

Implicit Types (s p u sub sep : str) (c x : ascii) (l : list str).

Lemma contains_here s sub : startswith s sub = true -> contains s sub = true.
Proof. intros H. destruct s; simpl in *; now rewrite H. Qed.

Lemma contains_cons c s sub :
  contains (c :: s) sub = startswith (c :: s) sub || contains s sub.
Proof. reflexivity. Qed.

Lemma contains_infix s sub : contains s sub = true <-> infix sub s.
Proof.
  split.
  - induction s as [|c s IH]; intros H.
    + destruct sub; [|discriminate]. now exists [], [].
    + rewrite contains_cons in H. apply orb_true_iff in H as [H|H].
      * exists [], (drop (length sub) (c :: s)). now apply startswith_inv.
      * destruct (IH H) as (l & r & ->). now exists (c :: l), r.
  - intros (l & r & ->). induction l as [|c l IH].
    + apply contains_here, (startswith_app sub r).
    + simpl app. rewrite contains_cons, IH. apply orb_true_r.
Qed.

Lemma infix_refl s : infix s s.
Proof. exists [], []. now rewrite app_nil_r. Qed.

Lemma infix_trans p u s : infix p u -> infix u s -> infix p s.
Proof.
  intros (l1 & r1 & ->) (l2 & r2 & ->).
  exists (l2 ++ l1), (r1 ++ r2). now rewrite <- !app_assoc.
Qed.

Lemma infix_contains p s sub :
  infix p s -> contains s sub = false -> contains p sub = false.
Proof.
  intros Hp Hs. destruct (contains p sub) eqn:H; [|reflexivity].
  apply contains_infix in H.
  rewrite <- Hs. symmetry. apply contains_infix. eapply infix_trans; eauto.
Qed.

Lemma infix_forallb (f : ascii -> bool) p s :
  infix p s -> forallb f s = true -> forallb f p = true.
Proof.
  intros (l & r & ->). rewrite !forallb_app.
  intros H. apply andb_true_iff in H as [_ H].
  now apply andb_true_iff in H as [H _].
Qed.

Lemma join_cons sep p l :
  l <> [] -> join sep (p :: l) = p ++ sep ++ join sep l.
Proof. destruct l; [congruence|reflexivity]. Qed.

Lemma join_cons_to_head sep c l :
  l <> [] -> join sep (cons_to_head c l) = c :: join sep l.
Proof.
  destruct l as [|p [|p' l]]; [congruence|reflexivity|reflexivity].
Qed.

(** Joining the pieces of a split gives the text back. *)
Lemma join_split s sep : join sep (split s sep) = s.
Proof.
  destruct sep as [|a sep']; [reflexivity|].
  set (sep := a :: sep'). assert (Hsep : sep <> []) by discriminate.
  induction s as [s IH] using str_length_ind.
  destruct s as [|c s]; [reflexivity|].
  destruct (startswith (c :: s) sep) eqn:Hs.
  - rewrite split_match by (auto; discriminate).
    rewrite join_cons by apply split_not_nil.
    rewrite IH by (apply length_drop_pattern; auto; discriminate).
    symmetry. exact (startswith_inv _ _ Hs).
  - rewrite split_step by auto.
    rewrite join_cons_to_head by apply split_not_nil.
    f_equal. apply IH. simpl. lia.
Qed.

Lemma infix_join p l sep : In p l -> infix p (join sep l).
Proof.
  induction l as [|k l IH]; [intros []|].
  destruct l as [|k' l].
  - intros [->|[]]. apply infix_refl.
  - intros [->|Hin].
    + rewrite join_cons by discriminate. exists [], (sep ++ join sep (k' :: l)).
      reflexivity.
    + rewrite join_cons by discriminate.
      destruct (IH Hin) as (a & b & ->).
      exists (k ++ sep ++ a), b. now rewrite <- !app_assoc.
Qed.

(** Every piece of a split occurs in the text. *)
Lemma infix_split p s sep : In p (split s sep) -> infix p s.
Proof.
  intros Hin. rewrite <- (join_split s sep). now apply infix_join.
Qed.

Lemma forallb_join (f : ascii -> bool) sep l :
  forallb f sep = true -> Forall (fun k => forallb f k = true) l ->
  forallb f (join sep l) = true.
Proof.
  intros Hsep Hl. induction Hl as [|k l Hk Hl IH]; [reflexivity|].
  destruct l as [|k' l]; [exact Hk|].
  rewrite join_cons by discriminate.
  now rewrite !forallb_app, Hk, Hsep, IH.
Qed.

End Occurrences.

(** * Characters that a pattern avoids act as separators *)

Section Separators.

Implicit Types (s p u old new : str) (c x : ascii).

Lemma startswith_avoided x p u s :
  avoids x p = true ->
  startswith (u ++ x :: s) p = startswith u p.
Proof.
  revert u. induction p as [|a p IH]; intros u Hx.
  - now rewrite !startswith_nil.
  - simpl in Hx. apply andb_true_iff in Hx as [Ha Hp].
    destruct u as [|b u]; simpl.
    + apply negb_true_iff in Ha. now rewrite Ha.
    + now rewrite IH.
Qed.

Lemma startswith_avoided_head x p s :
  avoids x p = true -> p <> [] -> startswith (x :: s) p = false.
Proof.
  intros Hx Hp. change (x :: s) with ([] ++ x :: s).
  rewrite (startswith_avoided x p [] s Hx).
  destruct p; [congruence|reflexivity].
Qed.

Lemma contains_empty p : p <> [] -> contains [] p = false.
Proof. destruct p; [congruence|reflexivity]. Qed.

Lemma contains_avoided x p u s :
  avoids x p = true -> p <> [] ->
  contains (u ++ x :: s) p = contains u p || contains s p.
Proof.
  intros Hx Hp. induction u as [|b u IH].
  - simpl app. rewrite contains_cons, startswith_avoided_head by auto.
    now rewrite contains_empty.
  - change ((b :: u) ++ x :: s) with (b :: (u ++ x :: s)).
    rewrite !contains_cons, IH.
    change (b :: (u ++ x :: s)) with ((b :: u) ++ x :: s).
    rewrite startswith_avoided by auto. now rewrite orb_assoc.
Qed.

Lemma contains_avoided_head x p s :
  avoids x p = true -> p <> [] -> contains (x :: s) p = contains s p.
Proof.
  intros Hx Hp. change (x :: s) with ([] ++ x :: s).
  rewrite (contains_avoided x p [] s Hx Hp).
  now rewrite contains_empty.
Qed.

(** A prefix of the rewritten text that avoids the new character was a
    prefix of the text. *)
Lemma startswith_replace x old p s :
  old <> [] -> avoids x p = true ->
  startswith (replace s old [x]) p = true -> startswith s p = true.
Proof.
  intros Hold. revert s. induction p as [|a p IH]; intros s Hx H.
  - apply startswith_nil.
  - destruct s as [|c s]; [now rewrite replace_empty in H|].
    destruct (startswith (c :: s) old) eqn:Hs.
    + rewrite replace_match in H by (auto; discriminate).
      simpl app in H. now rewrite startswith_avoided_head in H.
    + rewrite replace_step in H by auto.
      simpl in Hx, H |- *.
      apply andb_true_iff in Hx as [_ Hx].
      apply andb_true_iff in H as [-> H]. now apply IH.
Qed.

(** After [replace(old, x)] with a character [x] outside [old], no
    occurrence of [old] is left. *)
Lemma contains_replace x old s :
  old <> [] -> avoids x old = true ->
  contains (replace s old [x]) old = false.
Proof.
  intros Hold Hx. induction s as [s IH] using str_length_ind.
  destruct s as [|c s]; [rewrite replace_empty by auto; now apply contains_empty|].
  destruct (startswith (c :: s) old) eqn:Hs.
  - rewrite replace_match by (auto; discriminate). simpl app.
    rewrite contains_avoided_head by auto.
    apply IH, length_drop_pattern; auto; discriminate.
  - rewrite replace_step by auto. rewrite contains_cons.
    rewrite IH by (simpl; lia). rewrite orb_false_r.
    destruct (startswith (c :: replace s old [x]) old) eqn:H; [|reflexivity].
    rewrite <- (replace_step c s old [x]) in H by auto.
    apply startswith_replace in H; auto. congruence.
Qed.

(** A text without occurrence of [old] is left as it is. *)
Lemma replace_absent s old new :
  old <> [] -> contains s old = false -> replace s old new = s.
Proof.
  intros Hold. induction s as [|c s IH]; intros H.
  - now apply replace_empty.
  - rewrite contains_cons in H. apply orb_false_iff in H as [Hs H].
    rewrite replace_step by auto. now rewrite IH.
Qed.

Lemma forallb_drop (f : ascii -> bool) n s :
  forallb f s = true -> forallb f (drop n s) = true.
Proof.
  intros H. rewrite <- (take_drop n s), forallb_app in H.
  now apply andb_true_iff in H as [_ H].
Qed.

Lemma forallb_replace (f : ascii -> bool) s old new :
  old <> [] -> forallb f new = true -> forallb f s = true ->
  forallb f (replace s old new) = true.
Proof.
  intros Hold Hnew. induction s as [s IH] using str_length_ind. intros H.
  destruct s as [|c s]; [now rewrite replace_empty|].
  destruct (startswith (c :: s) old) eqn:Hs.
  - rewrite replace_match by (auto; discriminate).
    rewrite forallb_app, Hnew. simpl.
    apply IH; [apply length_drop_pattern; auto; discriminate|].
    now apply forallb_drop.
  - rewrite replace_step by auto. simpl in H |- *.
    apply andb_true_iff in H as [-> H]. apply IH; [simpl; lia|exact H].
Qed.

End Separators.

(** * Trimming *)

Section Trimming.

Implicit Types (s k u : str) (c : ascii).

Lemma lstrip_suffix s : exists l, s = l ++ lstrip s.
Proof.
  induction s as [|c s [l IH]]; [now exists []|].
  simpl. destruct (is_space c); [|now exists []].
  exists (c :: l). simpl. now f_equal.
Qed.

Lemma lstrip_starts_clean s : starts_clean (lstrip s) = true.
Proof.
  induction s as [|c s IH]; [reflexivity|].
  simpl. destruct (is_space c) eqn:Hc; [exact IH|]. simpl. now rewrite Hc.
Qed.

Lemma lstrip_id s : starts_clean s = true -> lstrip s = s.
Proof.
  destruct s as [|c s]; [reflexivity|]. simpl.
  intros H. apply negb_true_iff in H. now rewrite H.
Qed.

Lemma infix_strip s : infix (strip s) s.
Proof.
  unfold strip, rstrip.
  destruct (lstrip_suffix s) as [l Hl].
  destruct (lstrip_suffix (rev (lstrip s))) as [r Hr].
  exists l, (rev r). rewrite <- rev_app_distr, <- Hr, rev_involutive.
  exact Hl.
Qed.

Lemma strip_no_outer_space s : no_outer_space (strip s) = true.
Proof.
  unfold no_outer_space, strip, rstrip.
  rewrite rev_involutive, lstrip_starts_clean, andb_true_r.
  destruct (lstrip_suffix (rev (lstrip s))) as [r Hr].
  pose proof (lstrip_starts_clean s) as Hs.
  apply (f_equal (@rev ascii)) in Hr.
  rewrite rev_involutive, rev_app_distr in Hr.
  destruct (rev (lstrip (rev (lstrip s)))) as [|a w]; [reflexivity|].
  rewrite Hr in Hs. exact Hs.
Qed.

Lemma strip_id k : no_outer_space k = true -> strip k = k.
Proof.
  unfold no_outer_space, strip, rstrip. intros H.
  apply andb_true_iff in H as [H1 H2].
  now rewrite (lstrip_id k H1), (lstrip_id (rev k) H2), rev_involutive.
Qed.

Lemma strip_space_cons c s : is_space c = true -> strip (c :: s) = strip s.
Proof. intros H. unfold strip. simpl. now rewrite H. Qed.

End Trimming.

(** * Lower case *)

Section LowerCase.

Implicit Types (s : str) (c : ascii).

Lemma lower_char_not_upper c : is_upper (lower_char c) = false.
Proof. destruct c as [[] [] [] [] [] [] [] []]; reflexivity. Qed.

Lemma lower_char_id c : is_upper c = false -> lower_char c = c.
Proof. unfold lower_char. now intros ->. Qed.

Lemma lowercase_lower s : lowercase (lower s) = true.
Proof.
  induction s as [|c s IH]; [reflexivity|].
  simpl. now rewrite lower_char_not_upper, IH.
Qed.

Lemma lower_id s : lowercase s = true -> lower s = s.
Proof.
  induction s as [|c s IH]; [reflexivity|]. simpl.
  intros H. apply andb_true_iff in H as [Hc H].
  apply negb_true_iff in Hc. now rewrite lower_char_id, IH.
Qed.

End LowerCase.

(** * Keyword strings: cutting a join and joining a cut *)

Section KeywordStrings.

Implicit Types (s k rest sep : str) (c : ascii) (ks : list str).

Lemma comma_free_head_mismatch c k sep s :
  comma_free (c :: k) = true -> startswith (c :: s) (","%char :: sep) = false.
Proof.
  simpl. intros H. apply andb_true_iff in H as [H _].
  apply negb_true_iff in H. now rewrite Ascii.eqb_sym, H.
Qed.

(** A comma-free keyword in front of a separator that begins with a
    comma is the first piece. *)
Lemma split_keyword_sep k sep rest :
  comma_free k = true ->
  split (k ++ (","%char :: sep) ++ rest) (","%char :: sep)
  = k :: split rest (","%char :: sep).
Proof.
  intros Hk. induction k as [|c k IH].
  - change ([] ++ (","%char :: sep) ++ rest) with ((","%char :: sep) ++ rest).
    rewrite split_match; [|discriminate|apply startswith_app|discriminate].
    now rewrite drop_app_length.
  - change ((c :: k) ++ (","%char :: sep) ++ rest)
      with (c :: (k ++ (","%char :: sep) ++ rest)).
    rewrite split_step;
      [|discriminate|now apply (comma_free_head_mismatch c k)].
    rewrite IH; [reflexivity|].
    simpl in Hk. now apply andb_true_iff in Hk as [_ Hk].
Qed.

Lemma split_keyword k sep :
  comma_free k = true -> split k (","%char :: sep) = [k].
Proof.
  intros Hk. induction k as [|c k IH]; [reflexivity|].
  rewrite split_step;
    [|discriminate|now apply (comma_free_head_mismatch c k)].
  rewrite IH; [reflexivity|].
  simpl in Hk. now apply andb_true_iff in Hk as [_ Hk].
Qed.

(** Cutting a ", "-join of comma-free keywords at ", " gives the
    keywords back. *)
Lemma split_join_keywords ks :
  ks <> [] -> Forall (fun k => comma_free k = true) ks ->
  split (join (lit ", ") ks) (lit ", ") = ks.
Proof.
  intros Hne H. induction H as [|k ks Hk H IH]; [congruence|].
  destruct ks as [|k' ks]; [now apply split_keyword|].
  rewrite join_cons by discriminate.
  change (lit ", ") with (","%char :: lit " ").
  rewrite split_keyword_sep by exact Hk.
  f_equal. apply IH. discriminate.
Qed.

(** Cutting it at "," leaves a blank in front of every keyword but the
    first. *)
Lemma split_comma_join_keywords k ks :
  Forall (fun k => comma_free k = true) (k :: ks) ->
  split (join (lit ", ") (k :: ks)) (lit ",") = k :: map (cons " "%char) ks.
Proof.
  revert k. induction ks as [|k' ks IH]; intros k H.
  - apply split_keyword. now inversion H.
  - rewrite join_cons by discriminate.
    change (lit ", " ++ join (lit ", ") (k' :: ks))
      with (lit "," ++ " "%char :: join (lit ", ") (k' :: ks)).
    change (lit ",") with (","%char :: []).
    rewrite split_keyword_sep by now inversion H.
    rewrite split_char_cons.
    change (Ascii.eqb " "%char ","%char) with false. cbv iota.
    change (","%char :: []) with (lit ",").
    rewrite IH by now inversion H. reflexivity.
Qed.

Lemma comma_free_pieces s :
  Forall (fun p => comma_free p = true) (split s (lit ",")).
Proof.
  change (lit ",") with [","%char].
  induction s as [|c s IH]; [repeat constructor|].
  rewrite split_char_cons. destruct (Ascii.eqb c ","%char) eqn:Hc.
  - now constructor.
  - destruct IH as [|p ps Hp Hps]; simpl.
    + repeat constructor. simpl. now rewrite Hc.
    + constructor; [|exact Hps]. simpl. now rewrite Hc, Hp.
Qed.

End KeywordStrings.

(** * The keywords that the extractor emits *)

Section ExtractedKeywords.

Implicit Types (input s k p : str) (ks : list str).

Lemma keywords_unfold input :
  interest_keywords input =
  map strip (List.filter (fun kw => nonempty (strip kw))
                         (split (rewritten input) (lit ","))).
Proof. reflexivity. Qed.

(** Every keyword is the trimmed, non-empty form of a piece. *)
Lemma keywords_inv input k :
  In k (interest_keywords input) ->
  exists p, In p (split (rewritten input) (lit ",")) /\ k = strip p
            /\ nonempty k = true.
Proof.
  rewrite keywords_unfold. intros H.
  apply in_map_iff in H as (p & <- & H).
  apply filter_In in H as [Hp Hne]. now exists p.
Qed.

Lemma keywords_infix input k : In k (interest_keywords input) -> infix k (rewritten input).
Proof.
  intros H. apply keywords_inv in H as (p & Hp & -> & _).
  eapply infix_trans; [apply infix_strip|]. eapply infix_split, Hp.
Qed.

Lemma rewritten_lowercase input : lowercase (rewritten input) = true.
Proof.
  unfold rewritten, lowercase.
  apply forallb_replace; [discriminate|reflexivity|].
  apply forallb_replace; [discriminate|reflexivity|].
  apply lowercase_lower.
Qed.

Lemma rewritten_no_and input : contains (rewritten input) (lit "and") = false.
Proof. apply (contains_replace ","%char); [discriminate|reflexivity]. Qed.

Lemma keywords_ok input :
  Forall (fun k => keyword_ok k = true) (interest_keywords input).
Proof.
  apply List.Forall_forall. intros k H.
  apply keywords_inv in H as (p & Hp & -> & Hne).
  unfold keyword_ok. rewrite Hne, strip_no_outer_space. simpl.
  apply (infix_forallb _ (strip p) p); [apply infix_strip|].
  pose proof (comma_free_pieces (rewritten input)) as Hall.
  rewrite List.Forall_forall in Hall. now apply Hall.
Qed.

Lemma keywords_lowercase input :
  Forall (fun k => lowercase k = true) (interest_keywords input).
Proof.
  apply List.Forall_forall. intros k H.
  eapply infix_forallb; [apply keywords_infix, H|apply rewritten_lowercase].
Qed.

Lemma keywords_no_and input :
  Forall (fun k => contains k (lit "and") = false) (interest_keywords input).
Proof.
  apply List.Forall_forall. intros k H.
  eapply infix_contains; [apply keywords_infix, H|apply rewritten_no_and].
Qed.

(** A pattern without comma and blank occurs in a ", "-join only inside
    a keyword. *)
Lemma contains_join_keywords sub ks :
  sub <> [] -> avoids ","%char sub = true -> avoids " "%char sub = true ->
  Forall (fun k => contains k sub = false) ks ->
  contains (join (lit ", ") ks) sub = false.
Proof.
  intros Hsub Hc Hb H. induction H as [|k ks Hk H IH].
  - now apply contains_empty.
  - destruct ks as [|k' ks]; [exact Hk|].
    rewrite join_cons by discriminate.
    change (k ++ lit ", " ++ join (lit ", ") (k' :: ks))
      with (k ++ ","%char :: " "%char :: join (lit ", ") (k' :: ks)).
    rewrite contains_avoided, contains_avoided_head by auto.
    now rewrite Hk, IH.
Qed.

Lemma keyword_ok_comma_free ks :
  Forall (fun k => keyword_ok k = true) ks ->
  Forall (fun k => comma_free k = true) ks.
Proof.
  apply List.Forall_impl. intros k H. unfold keyword_ok in H.
  now apply andb_true_iff in H as [_ H].
Qed.

Lemma join_keywords_empty ks :
  Forall (fun k => keyword_ok k = true) ks ->
  join (lit ", ") ks = [] -> ks = [].
Proof.
  intros H. destruct H as [|k ks Hk H]; [reflexivity|].
  destruct k as [|c k]; [discriminate|].
  destruct ks; discriminate.
Qed.

(** The components of the output are the extracted keywords. *)
Lemma components_output input :
  components (get_user_interests input) = interest_keywords input.
Proof.
  unfold get_user_interests, components.
  pose proof (keywords_ok input) as Hok.
  destruct (join (lit ", ") (interest_keywords input)) as [|c s] eqn:Hj.
  - symmetry. now apply join_keywords_empty.
  - rewrite <- Hj. apply split_join_keywords.
    + intros E. now rewrite E in Hj.
    + now apply keyword_ok_comma_free.
Qed.

Lemma output_lowercase input : lowercase (get_user_interests input) = true.
Proof. apply forallb_join; [reflexivity|apply keywords_lowercase]. Qed.

Lemma output_no_and input :
  contains (get_user_interests input) (lit "and") = false.
Proof.
  apply contains_join_keywords;
    [discriminate|reflexivity|reflexivity|apply keywords_no_and].
Qed.

End ExtractedKeywords.

(** C4. For every input, [get_user_interests] computes what the
    specification's algorithm says: lower-case the input, remove the phrase
    "i'm interested in", replace every "and" by a comma (inside words too,
    so that none is left), split on commas, trim each piece, drop the empty
    pieces and rejoin with ", ".  A phrase in mixed case is removed, and
    "android phones" loses its "and". *)
Theorem C4_get_user_interests_algorithm :
  (forall input, get_user_interests input = Spec.interest_extractor input)
  /\ (forall s, contains (Spec.and_to_comma s) (lit "and") = false)
  /\ get_user_interests (lit "android phones") = lit "roid phones"
  /\ get_user_interests (lit "I'M Interested In Technology and Space")
     = lit "technology, space".
Proof.
  split; [|split; [|split; vm_compute; reflexivity]].
  - intros input. unfold get_user_interests, interest_keywords, Spec.interest_extractor.
    rewrite split_on_comma_correct, and_to_comma_correct, remove_phrase_correct.
    now rewrite filter_map_comm.
  - intros s. rewrite and_to_comma_correct.
    apply (contains_replace ","%char); [discriminate|reflexivity].
Qed.

(** The generic code at the characters of [str] is [get_user_interests]. *)
Lemma wide_code_agrees (input : str) :
  Wide.get_user_interests Ascii.eqb is_space lower_char (fun a => a) input
  = get_user_interests input.
Proof. reflexivity. Qed.




(** * Extracting again *)

Section Idempotence.

Implicit Types (input s k : str) (ks : list str).

Lemma keyword_ok_inv k :
  keyword_ok k = true ->
  nonempty k = true /\ no_outer_space k = true /\ comma_free k = true.
Proof.
  unfold keyword_ok. intros H.
  apply andb_true_iff in H as [H ?]. now apply andb_true_iff in H as [? ?].
Qed.

Lemma trim_blank_keywords ks :
  Forall (fun k => keyword_ok k = true) ks ->
  map strip (List.filter (fun kw => nonempty (strip kw)) (map (cons " "%char) ks))
  = ks.
Proof.
  induction 1 as [|k ks Hk H IH]; [reflexivity|].
  apply keyword_ok_inv in Hk as (Hne & Hsp & _).
  cbn [map List.filter].
  rewrite strip_space_cons by reflexivity.
  rewrite (strip_id k Hsp), Hne. cbn [map].
  rewrite strip_space_cons by reflexivity.
  now rewrite (strip_id k Hsp), IH.
Qed.

(** A clean ", "-join of keywords is a fixed point of the extractor. *)
Lemma clean_join_fixed ks :
  Forall (fun k => keyword_ok k = true) ks ->
  lower (join (lit ", ") ks) = join (lit ", ") ks ->
  contains (join (lit ", ") ks) (lit "i'm interested in") = false ->
  contains (join (lit ", ") ks) (lit "and") = false ->
  get_user_interests (join (lit ", ") ks) = join (lit ", ") ks.
Proof.
  intros Hok Hlow Hphrase Hand.
  unfold get_user_interests. f_equal. rewrite keywords_unfold.
  unfold rewritten. rewrite Hlow.
  rewrite (replace_absent _ (lit "i'm interested in")) by (auto; discriminate).
  rewrite (replace_absent _ (lit "and")) by (auto; discriminate).
  destruct Hok as [|k ks Hk Hok]; [reflexivity|].
  rewrite split_comma_join_keywords
    by (apply keyword_ok_comma_free; now constructor).
  apply keyword_ok_inv in Hk as (Hne & Hsp & _).
  cbn [List.filter]. rewrite (strip_id k Hsp), Hne. cbn [map].
  now rewrite (strip_id k Hsp), trim_blank_keywords.
Qed.

Lemma join_components s : join (lit ", ") (components s) = s.
Proof. destruct s; [reflexivity|apply join_split]. Qed.

Lemma clean_fixed s : is_clean s = true -> get_user_interests s = s.
Proof.
  unfold is_clean. intros H.
  apply andb_true_iff in H as [H Hks].
  apply andb_true_iff in H as [H Hand].
  apply andb_true_iff in H as [Hlow Hphrase].
  apply bool_decide_eq_true in Hlow.
  apply negb_true_iff in Hand, Hphrase.
  rewrite forallb_forall, <- List.Forall_forall in Hks.
  rewrite <- (join_components s) in Hlow, Hphrase, Hand |- *.
  now apply clean_join_fixed.
Qed.

(** An output without the phrase "i'm interested in" is clean. *)
Lemma output_clean input :
  contains (get_user_interests input) (lit "i'm interested in") = false ->
  is_clean (get_user_interests input) = true.
Proof.
  intros Hphrase. unfold is_clean.
  rewrite Hphrase, output_no_and, components_output.
  rewrite (lower_id _ (output_lowercase input)).
  rewrite bool_decide_eq_true_2 by reflexivity. simpl.
  apply forallb_forall, List.Forall_forall, keywords_ok.
Qed.

Lemma output_fixed_without_phrase input :
  contains (get_user_interests input) (lit "i'm interested in") = false ->
  get_user_interests (get_user_interests input) = get_user_interests input.
Proof. intros H. now apply clean_fixed, output_clean. Qed.

End Idempotence.

(** C6, as stated, fails: the output "i'm interested in" of the extractor
    is a lower-case keyword string with one well-formed keyword, and
    extracting it again yields the empty string. *)
Lemma C6_output_not_fixed :
  let s := get_user_interests (lit "i'm interei'm interested insted in") in
  s = lit "i'm interested in"
  /\ lowercase s = true
  /\ forallb keyword_ok (components s) = true
  /\ get_user_interests s <> s.
Proof. vm_compute. repeat split. discriminate. Qed.

(** C6, amended. Every lower-case string that is a ", "-join of non-empty,
    trimmed, comma-free keywords and contains neither "and" nor
    "i'm interested in" is left unchanged by [get_user_interests]. *)
Theorem C6_idempotent_on_clean : forall s : str,
  is_clean s = true -> get_user_interests s = s.
Proof. exact clean_fixed. Qed.

Lemma C6_idempotent_on_clean_witness :
  is_clean (lit "technology, space") = true
  /\ get_user_interests (lit "technology, space") = lit "technology, space".
Proof.
  split; [vm_compute; reflexivity|].
  apply (C6_idempotent_on_clean (lit "technology, space")).
  vm_compute. reflexivity.
Defined.

(** * Calls and traces *)

Section Traces.

Context {A B : Type}.
Implicit Types (t : trace) (e : exn).

Lemma quiet_ret (a : A) : quiet (mret a).
Proof. now intros t. Qed.

Lemma quiet_raise e : quiet (@raise A e).
Proof. now intros t. Qed.

Lemma quiet_lift (o : outcome A) : quiet (lift o).
Proof. now intros t. Qed.

Lemma quiet_if (b : bool) (m1 m2 : M A) :
  quiet m1 -> quiet m2 -> quiet (if b then m1 else m2).
Proof. now destruct b. Qed.

Lemma trace_effect_bind (m : M A) (k : A -> M B) f :
  trace_effect m f -> (forall a, quiet (k a)) -> trace_effect (m ≫= k) f.
Proof.
  intros Hm Hk t. specialize (Hm t).
  unfold mbind, M_bind. destruct (m t) as [[a|e] t']; simpl in *.
  - now rewrite (Hk a t').
  - exact Hm.
Qed.

Lemma trace_effect_try (m : M A) (h : exn -> M A) f :
  trace_effect m f -> (forall e, quiet (h e)) -> trace_effect (try_except m h) f.
Proof.
  intros Hm Hh t. specialize (Hm t).
  unfold try_except. destruct (m t) as [[a|e] t']; simpl in *.
  - exact Hm.
  - now rewrite (Hh e t').
Qed.

(** A [try] whose handler always returns never raises. *)
Lemma try_except_returns (m : M A) (h : exn -> M A) t :
  (forall e t', exists a, fst (h e t') = Return a) ->
  exists a, fst (try_except m h t) = Return a.
Proof.
  intros Hh. unfold try_except. destruct (m t) as [[a|e] t'].
  - now exists a.
  - apply Hh.
Qed.

End Traces.

Lemma quiet_bind {A B} (m : M A) (k : A -> M B) :
  quiet m -> (forall a, quiet (k a)) -> quiet (m ≫= k).
Proof. apply trace_effect_bind. Qed.

Lemma quiet_try {A} (m : M A) (h : exn -> M A) :
  quiet m -> (forall e, quiet (h e)) -> quiet (try_except m h).
Proof. apply trace_effect_try. Qed.

Lemma quiet_raise_for_status r : quiet (raise_for_status r).
Proof. unfold raise_for_status. apply quiet_if; [apply quiet_raise|apply quiet_ret]. Qed.

Lemma quiet_response_json r : quiet (response_json r).
Proof. unfold response_json. destruct (body_json r); [apply quiet_ret|apply quiet_raise]. Qed.

Lemma quiet_get data key : quiet (get data key).
Proof. destruct data; first [apply quiet_ret|apply quiet_raise]. Qed.

Lemma quiet_get_default data key dflt : quiet (get_default data key dflt).
Proof. destruct data; first [apply quiet_ret|apply quiet_raise]. Qed.

Lemma quiet_len v : quiet (len v).
Proof. destruct v; first [apply quiet_ret|apply quiet_raise]. Qed.

Lemma quiet_subscript state key : quiet (subscript state key).
Proof. unfold subscript. destruct (state !! key); [apply quiet_ret|apply quiet_raise]. Qed.

Lemma quiet_str_argument v : quiet (str_argument v).
Proof. destruct v; first [apply quiet_ret|apply quiet_raise]. Qed.

Lemma requests_get_call_effect E r : trace_effect (requests_get_call E r) (add_http r).
Proof. now intros t. Qed.

Ltac unfold_monad :=
  unfold mbind, M_bind, mret, M_ret, raise, lift, try_except,
    log_http, log_model, log_graph in *.

Ltac quiet_steps :=
  repeat first
    [ apply quiet_ret | apply quiet_raise | apply quiet_lift
    | apply quiet_raise_for_status | apply quiet_response_json
    | apply quiet_get | apply quiet_get_default | apply quiet_len
    | apply quiet_subscript | apply quiet_str_argument
    | apply quiet_if | apply quiet_try; [|intros ?]
    | apply quiet_bind; [|intros ?] ].

(** * ArticleFetcher *)

Section Fetcher.

Implicit Types (E : env) (t : trace) (ks : list str) (k : str).

Lemma strip_blank_shape ks :
  Forall (fun k => keyword_shape k = true) ks ->
  map strip (map (cons " "%char) ks) = ks.
Proof.
  induction 1 as [|k ks Hk H IH]; [reflexivity|].
  apply andb_true_iff in Hk as [Hk _]. cbn [map].
  rewrite strip_space_cons by reflexivity. now rewrite strip_id, IH.
Qed.

(** Cutting a ", "-join of keywords at "," and trimming gives the
    keywords back. *)
Lemma strip_split_join k ks :
  Forall (fun k => keyword_shape k = true) (k :: ks) ->
  map strip (split (join (lit ", ") (k :: ks)) (lit ",")) = k :: ks.
Proof.
  intros H. rewrite split_comma_join_keywords.
  - inversion H as [|? ? Hk Hks]; subst. cbn [map].
    rewrite strip_blank_shape by exact Hks.
    apply andb_true_iff in Hk as [Hk _]. now rewrite strip_id.
  - eapply List.Forall_impl; [|exact H].
    intros a Ha. now apply andb_true_iff in Ha as [_ Ha].
Qed.

Lemma query_all ks :
  Forall (fun k => keyword_shape k = true) ks ->
  join (lit " ") (map strip (split (join (lit ", ") ks) (lit ","))) = join (lit " ") ks.
Proof.
  intros H. destruct ks as [|k ks]; [reflexivity|].
  now rewrite strip_split_join.
Qed.

Lemma query_first_three ks :
  Forall (fun k => keyword_shape k = true) ks ->
  join (lit " ") (take 3 (map strip (split (join (lit ", ") ks) (lit ","))))
  = join (lit " ") (take 3 ks).
Proof.
  intros H. destruct ks as [|k ks]; [reflexivity|].
  now rewrite strip_split_join.
Qed.

(** Each fetch sends exactly one GET, whatever the answer. *)
Lemma app_fetch_effect E interests :
  trace_effect (App.fetch_news_articles E interests)
    (add_http (search_request E
       (join (lit " ") (map strip (split interests (lit ",")))))).
Proof.
  unfold App.fetch_news_articles.
  apply trace_effect_try; [|intros e; quiet_steps].
  apply trace_effect_bind; [apply requests_get_call_effect|].
  intros r. quiet_steps.
Qed.

Lemma flask_fetch_effect E interests :
  trace_effect (FlaskApi.fetch_news_articles E interests)
    (add_http (search_request E
       (join (lit " ") (take 3 (map strip (split interests (lit ","))))))).
Proof.
  unfold FlaskApi.fetch_news_articles.
  apply trace_effect_try; [|intros e; quiet_steps].
  apply trace_effect_bind; [apply requests_get_call_effect|].
  intros r. quiet_steps.
Qed.

End Fetcher.

(** C8. Given a comma-joined keyword string, the fetcher cuts it back into
    its keywords at the commas and sends them space-joined as the one
    free-text query: [app.py] sends all keywords, [flask_api.py] the first
    three. *)
Theorem C8_search_query : forall (E : env) (ks : list str) (t : trace),
  forallb keyword_shape ks = true ->
  http_calls (snd (App.fetch_news_articles E (join (lit ", ") ks) t))
  = http_calls t ++ [search_request E (join (lit " ") ks)]
  /\ http_calls (snd (FlaskApi.fetch_news_articles E (join (lit ", ") ks) t))
     = http_calls t ++ [search_request E (join (lit " ") (take 3 ks))].
Proof.
  intros E ks t H. rewrite forallb_forall, <- List.Forall_forall in H.
  rewrite app_fetch_effect, flask_fetch_effect. cbn [http_calls add_http].
  now rewrite query_all, query_first_three.
Qed.

Lemma C8_search_query_witness :
  forallb keyword_shape [lit "ai"; lit "space"; lit "chips"; lit "law"] = true
  /\ last_query (snd (App.fetch_news_articles env_ok (lit "ai, space, chips, law") no_calls))
     = Some (lit "ai space chips law")
  /\ last_query (snd (FlaskApi.fetch_news_articles env_ok (lit "ai, space, chips, law") no_calls))
     = Some (lit "ai space chips").
Proof.
  split; [vm_compute; reflexivity|].
  destruct (C8_search_query env_ok [lit "ai"; lit "space"; lit "chips"; lit "law"]
              no_calls ltac:(vm_compute; reflexivity)) as [Ha Hf].
  unfold last_query.
  change (lit "ai, space, chips, law")
    with (join (lit ", ") [lit "ai"; lit "space"; lit "chips"; lit "law"]).
  rewrite Ha, Hf. split; reflexivity.
Defined.

(** * What the fetcher absorbs *)

Section FetcherFailures.

Implicit Types (E : env) (t : trace) (interests : str).

(** [app.py]: a failed search gives the empty list. *)
Lemma app_fetch_absorbs E interests t :
  search_failed (requests_get E (search_request E (app_query interests))) = true ->
  fst (App.fetch_news_articles E interests t) = Return (VList []).
Proof.
  unfold App.fetch_news_articles, requests_get_call, search_request, app_query.
  unfold_monad. cbn beta iota zeta.
  destruct (requests_get E _) as [r|e] eqn:Hget; cbn.
  - unfold raise_for_status, soft_failure, response_json.
    destruct (is_error_status r); cbn; [reflexivity|].
    intros H. destruct (body_json r) as [[| | | | |d]|]; try discriminate.
    cbn. now rewrite H.
  - intros _. now destruct (is_RequestException e).
Qed.

(** [app.py] never raises. *)
Lemma app_fetch_returns E interests t :
  exists v, fst (App.fetch_news_articles E interests t) = Return v.
Proof.
  apply try_except_returns. intros e t'. exists (VList []).
  now destruct (is_RequestException e).
Qed.

(** [flask_api.py]: a network failure or an error status gives the empty
    list. *)
Lemma flask_fetch_absorbs E interests t :
  search_failed_hard (requests_get E (search_request E (flask_query interests))) = true ->
  fst (FlaskApi.fetch_news_articles E interests t) = Return (VList []).
Proof.
  unfold FlaskApi.fetch_news_articles, requests_get_call, search_request, flask_query.
  unfold_monad. cbn beta iota zeta.
  destruct (requests_get E _) as [r|e] eqn:Hget; cbn.
  - unfold raise_for_status. intros ->. reflexivity.
  - intros _. destruct (is_HTTPError e), (is_RequestException e); reflexivity.
Qed.


End FetcherFailures.

(** A 503 from the search API is absorbed by both fetchers. *)
Example fetch_unavailable :
  fst (App.fetch_news_articles env_unavailable (lit "ai") no_calls) = Return (VList [])
  /\ fst (FlaskApi.fetch_news_articles env_unavailable (lit "ai") no_calls)
     = Return (VList []).
Proof. split; vm_compute; reflexivity. Qed.

(** C1, at the failing input. The search API answers 200 with the body
    [{"status": "error", "results": [{"title": "t"}]}]: the fetcher of
    [app.py] returns the empty list, the fetcher of [flask_api.py], which
    does not look at the status field, returns the one-element list. *)
Theorem C1_flask_ignores_status_field :
  search_failed (requests_get env_soft_failure
                   (search_request env_soft_failure (flask_query (lit "ai")))) = true
  /\ fst (App.fetch_news_articles env_soft_failure (lit "ai") no_calls)
     = Return (VList [])
  /\ fst (FlaskApi.fetch_news_articles env_soft_failure (lit "ai") no_calls)
     = Return (VList [sample_article])
  /\ VList [sample_article] <> VList [].
Proof. repeat split; try (vm_compute; reflexivity). discriminate. Qed.

(** * ArticleRanker *)

Section Ranker.

Implicit Types (E : env) (t : trace) (input : RankInput) (e : exn).

Lemma quiet_article_text E art : quiet (FlaskApi.article_text E art).
Proof.
  unfold FlaskApi.article_text, FlaskApi.slice_200.
  apply quiet_bind; [|intros ?; apply quiet_ret].
  destruct (default _ _); first [apply quiet_ret|apply quiet_raise].
Qed.

Lemma quiet_for_each {A B} (f : A -> M B) (l : list A) :
  (forall a, quiet (f a)) -> quiet (for_each f l).
Proof.
  intros Hf. induction l as [|a l IH]; [apply quiet_ret|].
  cbn [for_each]. apply quiet_bind; [apply Hf|intros ?].
  apply quiet_bind; [apply IH|intros ?; apply quiet_ret].
Qed.

(** Both rankers always return. *)
Lemma app_rank_returns E input t :
  exists s, fst (App.rank_articles E input t) = Return s.
Proof. apply try_except_returns. intros e t'. now eexists. Qed.

Lemma flask_rank_returns E input t :
  exists s, fst (FlaskApi.rank_articles E input t) = Return s.
Proof. apply try_except_returns. intros e t'. now eexists. Qed.





End Ranker.




(** C3. Given an empty article list, each ranker returns its fixed "no
    articles" message and leaves the trace as it was: no model call is
    made. *)
Theorem C3_empty_batch_no_model_call :
  forall (E : env) (ints : str) (t : trace),
  App.rank_articles E {| articles := []; interests := ints |} t
  = (Return (lit "No recent articles found matching your interests."), t)
  /\ FlaskApi.rank_articles E {| articles := []; interests := ints |} t
     = (Return (lit "No articles found matching your interests."), t)
  /\ model_calls (snd (App.rank_articles E {| articles := []; interests := ints |} t))
     = model_calls t
  /\ model_calls (snd (FlaskApi.rank_articles E {| articles := []; interests := ints |} t))
     = model_calls t.
Proof. intros E ints t. repeat split. Qed.

(** With an article to rank, the model is called once. *)
Example rank_calls_model_once :
  length (model_calls (snd (App.rank_articles env_ok sample_input no_calls))) = 1
  /\ length (model_calls (snd (FlaskApi.rank_articles env_ok sample_input no_calls))) = 1.
Proof. split; vm_compute; reflexivity. Qed.

(** * The service boundary *)

(** C5. A POST to /recommend whose JSON object has no topic, or a topic
    that is empty (any value that counts as false), is answered with status
    400 and a body with an error field; the trace is left as it was, so the
    pipeline is not invoked. *)
Theorem C5_missing_topic_400 :
  forall (E : env) (d : gmap str value) (t : trace),
  (d !! lit "topic" = None
   \/ exists v, d !! lit "topic" = Some v /\ truthy v = false) ->
  FlaskApi.recommend E (FlaskApi.JsonBody (VDict d)) t
  = (Return (VDict {[ lit "error" := VStr (lit "Missing required field: topic") ]},
             400%Z), t)
  /\ graph_calls (snd (FlaskApi.recommend E (FlaskApi.JsonBody (VDict d)) t))
     = graph_calls t.
Proof.
  intros E d t H.
  assert (Hfalsy : truthy (default VNone (d !! lit "topic")) = false).
  { destruct H as [->|(v & -> & Hv)]; [reflexivity|exact Hv]. }
  assert (Hrun : FlaskApi.recommend E (FlaskApi.JsonBody (VDict d)) t
    = (Return (VDict {[ lit "error" := VStr (lit "Missing required field: topic") ]},
               400%Z), t)).
  { unfold FlaskApi.recommend, FlaskApi.get_json, get. unfold_monad.
    now rewrite Hfalsy. }
  now rewrite Hrun.
Qed.

Lemma C5_missing_topic_400_witness :
  fst (FlaskApi.recommend env_ok (FlaskApi.JsonBody (VDict ∅)) no_calls)
  = Return (VDict {[ lit "error" := VStr (lit "Missing required field: topic") ]}, 400%Z)
  /\ fst (FlaskApi.recommend env_ok
            (FlaskApi.JsonBody (VDict {[ lit "topic" := VStr empty_str ]})) no_calls)
     = Return (VDict {[ lit "error" := VStr (lit "Missing required field: topic") ]}, 400%Z).
Proof.
  split.
  - destruct (C5_missing_topic_400 env_ok ∅ no_calls) as [H _];
      [left; reflexivity|]. now rewrite H.
  - destruct (C5_missing_topic_400 env_ok {[ lit "topic" := VStr empty_str ]} no_calls)
      as [H _]; [right; exists (VStr empty_str); split; reflexivity|].
    now rewrite H.
Defined.

(** C10. A POST to /recommend whose body is not a JSON object (a body that
    does not parse, a content type that is not JSON, JSON null or any other
    JSON value that is not an object) is answered with status 500 and a
    body with an error field, not with the 400 of the missing topic; the
    exception is raised inside the handler and caught by its broad
    [except]; the pipeline is not invoked. *)
Theorem C10_not_an_object_500 :
  forall (E : env) (r : FlaskApi.request) (t : trace),
  is_json_object r = false ->
  exists e : exn,
    (data ← FlaskApi.get_json r; get data (lit "topic")) t = (Raise e, t)
    /\ FlaskApi.recommend E r t
       = (Return (VDict {[ lit "error" := VStr (exn_str e) ]}, 500%Z), t)
    /\ graph_calls (snd (FlaskApi.recommend E r t)) = graph_calls t.
Proof.
  intros E r t H.
  destruct r as [v| |]; [destruct v; try discriminate|..];
    eexists; (split; [reflexivity|]); split; reflexivity.
Qed.

Lemma C10_not_an_object_500_witness :
  is_json_object (FlaskApi.JsonBody VNone) = false
  /\ exists e : exn,
       (data ← FlaskApi.get_json (FlaskApi.JsonBody VNone); get data (lit "topic"))
         no_calls = (Raise e, no_calls)
       /\ FlaskApi.recommend env_ok (FlaskApi.JsonBody VNone) no_calls
          = (Return (VDict {[ lit "error" := VStr (exn_str e) ]}, 500%Z), no_calls)
       /\ graph_calls (snd (FlaskApi.recommend env_ok (FlaskApi.JsonBody VNone) no_calls))
          = graph_calls no_calls.
Proof.
  split; [reflexivity|].
  apply (C10_not_an_object_500 env_ok (FlaskApi.JsonBody VNone) no_calls).
  reflexivity.
Defined.

(** * The pipeline *)

Section Pipeline.

Implicit Types (E : env) (t : trace) (state update : gmap str value)
  (field key : str).




















End Pipeline.



(** A run of [app.py] on "AI and space" against a world that answers. *)
Example app_pipeline_run :
  exists final,
    fst (App.news_recommender_invoke env_ok sample_topic no_calls) = Return final
    /\ final !! lit "interests" = Some (VStr (lit "ai, space"))
    /\ final !! lit "articles" = Some (VList [sample_article])
    /\ final !! lit "recommendations" = Some (VStr (lit "## pick")).
Proof.
  destruct (App.news_recommender_invoke env_ok sample_topic no_calls)
    as [o t'] eqn:Hrun.
  apply (f_equal fst) in Hrun. vm_compute in Hrun. subst o.
  eexists. split; [reflexivity|]. repeat split; vm_compute; reflexivity.
Qed.

(** * Further properties of the extractor *)

Section NaturalPhrasing.

Implicit Types (s u p k l r : str) (x c : ascii) (ks : list str).

Lemma contains_rev s p : contains (rev s) (rev p) = contains s p.
Proof.
  apply eq_true_iff_eq. rewrite !contains_infix. split.
  - intros (l & r & H). exists (rev r), (rev l).
    apply (f_equal (@rev ascii)) in H.
    rewrite rev_involutive, !rev_app_distr, rev_involutive in H.
    now rewrite H, app_assoc.
  - intros (l & r & ->). exists (rev r), (rev l).
    now rewrite !rev_app_distr, app_assoc.
Qed.

(** A trailing character that is not the last of the pattern adds no
    occurrence. *)
Lemma contains_snoc s p x :
  startswith (x :: rev s) (rev p) = false ->
  contains (s ++ [x]) p = contains s p.
Proof.
  intros H. rewrite <- (contains_rev (s ++ [x])), rev_app_distr.
  simpl rev. simpl app. now rewrite contains_cons, H, contains_rev.
Qed.

Lemma replace_app_avoided u x s p new :
  p <> [] -> avoids x p = true -> contains u p = false ->
  replace (u ++ x :: s) p new = u ++ replace (x :: s) p new.
Proof.
  intros Hp Hx. induction u as [|c u IH]; intros Hu; [reflexivity|].
  rewrite contains_cons in Hu. apply orb_false_iff in Hu as [Hc Hu].
  change ((c :: u) ++ x :: s) with (c :: (u ++ x :: s)).
  rewrite replace_step; [now rewrite IH|exact Hp|].
  change (c :: (u ++ x :: s)) with ((c :: u) ++ x :: s).
  now rewrite startswith_avoided.
Qed.

Lemma replace_avoided_head x s p new :
  p <> [] -> avoids x p = true ->
  replace (x :: s) p new = x :: replace s p new.
Proof.
  intros Hp Hx. apply replace_step; [exact Hp|].
  now apply startswith_avoided_head.
Qed.

Lemma plain_keyword_inv k :
  plain_keyword k = true ->
  keyword_ok k = true /\ lowercase k = true
  /\ contains k (lit "and") = false
  /\ contains k (lit "i'm interested in") = false.
Proof.
  unfold plain_keyword. intros H.
  apply andb_true_iff in H as [H H4]. apply andb_true_iff in H as [H H3].
  apply andb_true_iff in H as [H1 H2].
  now apply negb_true_iff in H3, H4.
Qed.

(** The " and " of a phrase becomes " , ". *)
Lemma replace_join_and ks :
  Forall (fun k => plain_keyword k = true) ks ->
  replace (join (lit " and ") ks) (lit "and") (lit ",") = join (lit " , ") ks.
Proof.
  induction 1 as [|k ks Hk H IH]; [reflexivity|].
  apply plain_keyword_inv in Hk as (_ & _ & Hand & _).
  destruct ks as [|k' ks].
  - apply replace_absent; [discriminate|exact Hand].
  - rewrite !join_cons by discriminate.
    change (lit " and " ++ join (lit " and ") (k' :: ks))
      with (" "%char :: lit "and" ++ " "%char :: join (lit " and ") (k' :: ks)).
    rewrite replace_app_avoided by (auto; discriminate).
    rewrite replace_avoided_head by (auto; discriminate).
    rewrite replace_match;
      [|discriminate|apply startswith_app|discriminate].
    rewrite drop_app_length.
    rewrite replace_avoided_head by (auto; discriminate).
    now rewrite IH.
Qed.

(** The filler phrase does not arise between keywords. *)
Lemma join_and_phrase_free ks :
  Forall (fun k => plain_keyword k = true) ks ->
  contains (join (lit " and ") ks) (lit "i'm interested in") = false.
Proof.
  induction 1 as [|k ks Hk H IH]; [reflexivity|].
  apply plain_keyword_inv in Hk as (_ & _ & _ & Hphrase).
  destruct ks as [|k' ks]; [exact Hphrase|].
  rewrite join_cons by discriminate.
  change (k ++ lit " and " ++ join (lit " and ") (k' :: ks))
    with (k ++ " "%char :: "a"%char :: lit "nd " ++ join (lit " and ") (k' :: ks)).
  rewrite (app_assoc k [" "%char] _ : k ++ " "%char :: _ = (k ++ [" "%char]) ++ _).
  rewrite contains_avoided by (auto; discriminate).
  rewrite contains_snoc by reflexivity. rewrite Hphrase.
  cbn [orb].
  change (lit "nd " ++ join (lit " and ") (k' :: ks))
    with ("n"%char :: "d"%char :: " "%char :: join (lit " and ") (k' :: ks)).
  rewrite !contains_cons. now rewrite IH.
Qed.

End NaturalPhrasing.

Section PaddedKeywords.

Implicit Types (s u p k l r : str) (x c : ascii) (ks : list str).

Lemma forallb_rev (f : ascii -> bool) s : forallb f (rev s) = forallb f s.
Proof.
  induction s as [|c s IH]; [reflexivity|].
  simpl. rewrite forallb_app, IH. simpl. now rewrite andb_true_r, andb_comm.
Qed.

Lemma lstrip_spaces_app l s :
  forallb is_space l = true -> lstrip (l ++ s) = lstrip s.
Proof.
  induction l as [|c l IH]; [reflexivity|]. simpl.
  intros H. apply andb_true_iff in H as [-> H]. now apply IH.
Qed.

Lemma lstrip_keyword_app k r :
  starts_clean k = true -> k <> [] -> lstrip (k ++ r) = k ++ r.
Proof.
  destruct k as [|c k]; [congruence|]. intros H _. apply lstrip_id. exact H.
Qed.

(** Whitespace around a trimmed keyword is stripped, and nothing else. *)
Lemma strip_padded l k r :
  forallb is_space l = true -> forallb is_space r = true ->
  no_outer_space k = true -> strip (l ++ k ++ r) = k.
Proof.
  intros Hl Hr Hk. apply andb_true_iff in Hk as [Hk1 Hk2].
  unfold strip, rstrip. rewrite lstrip_spaces_app by exact Hl.
  destruct k as [|c k].
  - simpl app. rewrite <- (app_nil_r r) at 1.
    rewrite lstrip_spaces_app by exact Hr. reflexivity.
  - rewrite (lstrip_keyword_app (c :: k) r Hk1) by discriminate.
    rewrite rev_app_distr, lstrip_spaces_app by now rewrite forallb_rev.
    rewrite lstrip_id by exact Hk2. apply rev_involutive.
Qed.

Lemma extract_padded_join l k ks :
  forallb is_space l = true -> comma_free l = true ->
  Forall (fun k => keyword_ok k = true) (k :: ks) ->
  map strip (List.filter (fun kw => nonempty (strip kw))
                         (split (l ++ join (lit " , ") (k :: ks)) (lit ",")))
  = k :: ks.
Proof.
  revert l k. induction ks as [|k' ks IH]; intros l k Hl Hlc H;
    inversion H as [|? ? Hk Hks]; subst;
    apply keyword_ok_inv in Hk as (Hne & Hsp & Hcf).
  - cbn [join]. change (lit ",") with [","%char].
    rewrite split_keyword
      by (unfold comma_free in *; now rewrite forallb_app, Hlc, Hcf).
    assert (Hs : strip (l ++ k) = k).
    { rewrite <- (app_nil_r k) at 1. now apply strip_padded. }
    cbn [List.filter]. rewrite Hs, Hne. cbn [map]. now rewrite Hs.
  - rewrite join_cons by discriminate.
    change (l ++ k ++ lit " , " ++ join (lit " , ") (k' :: ks))
      with (l ++ k ++ [" "%char] ++ (","%char :: []) ++ [" "%char] ++ join (lit " , ") (k' :: ks)).
    rewrite (app_assoc k), (app_assoc l).
    change (lit ",") with [","%char].
    rewrite split_keyword_sep
      by (unfold comma_free in *; now rewrite !forallb_app, Hlc, Hcf).
    cbn [List.filter].
    rewrite (strip_padded l k [" "%char]) by auto. rewrite Hne. cbn [map].
    rewrite (strip_padded l k [" "%char]) by auto.
    f_equal. now apply IH.
Qed.

End PaddedKeywords.

(** X1. An enumeration in plain words is read back as its keywords: if
    the lower-cased input is "k1 and k2 and ... kn", with or without
    "i'm interested in " in front, where every ki is a plain keyword, the
    extractor returns "k1, k2, ..., kn". *)
Theorem extract_enumeration : forall (input : str) (ks : list str),
  forallb plain_keyword ks = true ->
  lower input = join (lit " and ") ks
  \/ lower input = lit "i'm interested in " ++ join (lit " and ") ks ->
  get_user_interests input = join (lit ", ") ks.
Proof.
  intros input ks Hks Hin.
  rewrite forallb_forall, <- List.Forall_forall in Hks.
  assert (Hok : Forall (fun k => keyword_ok k = true) ks).
  { eapply List.Forall_impl; [|exact Hks].
    intros k Hk. now apply plain_keyword_inv in Hk. }
  unfold get_user_interests. f_equal. rewrite keywords_unfold. unfold rewritten.
  assert (Hrw : replace (replace (lower input) (lit "i'm interested in") empty_str)
                        (lit "and") (lit ",")
                = join (lit " , ") ks
                  \/ replace (replace (lower input) (lit "i'm interested in") empty_str)
                             (lit "and") (lit ",")
                     = [" "%char] ++ join (lit " , ") ks).
  { destruct Hin as [-> | ->].
    - left. rewrite (replace_absent _ (lit "i'm interested in"))
        by (try discriminate; now apply join_and_phrase_free).
      now apply replace_join_and.
    - right.
      change (lit "i'm interested in " ++ join (lit " and ") ks)
        with (lit "i'm interested in" ++ " "%char :: join (lit " and ") ks).
      rewrite (replace_match _ (lit "i'm interested in") empty_str);
        [|discriminate|apply startswith_app|discriminate].
      rewrite drop_app_length.
      rewrite (replace_absent _ (lit "i'm interested in")).
      + cbn [empty_str app]. rewrite replace_avoided_head by (auto; discriminate).
        now rewrite replace_join_and.
      + discriminate.
      + rewrite contains_cons, join_and_phrase_free by exact Hks. reflexivity. }
  destruct ks as [|k ks].
  - destruct Hrw as [-> | ->]; reflexivity.
  - destruct Hrw as [-> | ->].
    + now apply (extract_padded_join [] k ks).
    + now apply (extract_padded_join [" "%char] k ks).
Qed.

Lemma extract_enumeration_witness :
  get_user_interests (lit "I'm interested in technology and space")
  = join (lit ", ") [lit "technology"; lit "space"].
Proof.
  apply (extract_enumeration (lit "I'm interested in technology and space")
           [lit "technology"; lit "space"]).
  - vm_compute. reflexivity.
  - right. vm_compute. reflexivity.
Defined.

(** X2. An input that, lower-cased, holds no comma, no "and" and no
    "i'm interested in" is a single topic: the extractor returns it
    lower-cased and trimmed. *)
Theorem extract_single_topic : forall input : str,
  comma_free (lower input) = true ->
  contains (lower input) (lit "and") = false ->
  contains (lower input) (lit "i'm interested in") = false ->
  get_user_interests input = strip (lower input).
Proof.
  intros input Hc Hand Hphrase.
  unfold get_user_interests. rewrite keywords_unfold. unfold rewritten.
  rewrite (replace_absent _ (lit "i'm interested in")) by (auto; discriminate).
  rewrite (replace_absent _ (lit "and")) by (auto; discriminate).
  change (lit ",") with [","%char].
  rewrite split_keyword by exact Hc. cbn [List.filter].
  destruct (strip (lower input)) as [|c s] eqn:Hs; cbn [nonempty map join].
  - reflexivity.
  - exact Hs.
Qed.

Lemma extract_single_topic_witness :
  get_user_interests (lit "  Space Exploration ") = lit "space exploration".
Proof.
  change (lit "space exploration") with (strip (lower (lit "  Space Exploration "))).
  apply extract_single_topic; reflexivity.
Defined.

(** * Further properties of the fetcher *)

Ltac run_monad :=
  repeat (progress
            (unfold mbind, M_bind, mret, M_ret, raise, lift, try_except,
               log_http, log_model, log_graph, get, get_default, len,
               subscript, str_argument, raise_for_status, response_json;
             cbv beta iota zeta)).

(** X3. [app.py]: when the search answers without an error status and
    with a JSON object whose "status" is "success", the fetcher returns
    what the object holds under "results" as it is, the empty list when
    the key is absent, after exactly one GET. *)
Theorem app_fetch_success :
  forall (E : env) (ints : str) (t : trace) (r : response) (d : gmap str value),
  requests_get E (search_request E (app_query ints)) = Return r ->
  is_error_status r = false ->
  body_json r = Some (VDict d) ->
  d !! lit "status" = Some (VStr (lit "success")) ->
  App.fetch_news_articles E ints t
  = (Return (default (VList []) (d !! lit "results")),
     add_http (search_request E (app_query ints)) t).
Proof.
  intros E ints t r d Hget Hstatus Hbody Hok.
  unfold App.fetch_news_articles, requests_get_call.
  unfold search_request, app_query in Hget.
  run_monad. rewrite Hget. run_monad. rewrite Hstatus, Hbody. run_monad.
  rewrite Hok. reflexivity.
Qed.

Lemma app_fetch_success_witness :
  App.fetch_news_articles env_ok (lit "ai") no_calls
  = (Return (VList [sample_article]),
     add_http (search_request env_ok (app_query (lit "ai"))) no_calls).
Proof.
  rewrite (app_fetch_success env_ok (lit "ai") no_calls
             {| status_code := 200;
                body_json := Some (VDict {[ lit "status" := VStr (lit "success");
                                            lit "results" := VList [sample_article] ]}) |}
             {[ lit "status" := VStr (lit "success");
                lit "results" := VList [sample_article] ]}
             eq_refl eq_refl eq_refl eq_refl).
  reflexivity.
Defined.

(** X4. [flask_api.py]: when the search answers without an error status
    and with a JSON object, the fetcher returns what the object holds under
    "results" if that has a length (a list, a string or a dict), and the
    empty list otherwise (a number, a boolean or null); the "status" of the
    object plays no part. *)
Theorem flask_fetch_success :
  forall (E : env) (ints : str) (t : trace) (r : response) (d : gmap str value),
  requests_get E (search_request E (flask_query ints)) = Return r ->
  is_error_status r = false ->
  body_json r = Some (VDict d) ->
  fst (FlaskApi.fetch_news_articles E ints t)
  = Return (let results := default (VList []) (d !! lit "results") in
            if sized results then results else VList []).
Proof.
  intros E ints t r d Hget Hstatus Hbody.
  unfold FlaskApi.fetch_news_articles, requests_get_call.
  unfold search_request, flask_query in Hget.
  run_monad. rewrite Hget. run_monad. rewrite Hstatus, Hbody. run_monad.
  destruct (default (VList []) (d !! lit "results")); reflexivity.
Qed.

Lemma flask_fetch_success_witness :
  fst (FlaskApi.fetch_news_articles env_soft_failure (lit "ai") no_calls)
  = Return (VList [sample_article]).
Proof.
  rewrite (flask_fetch_success env_soft_failure (lit "ai") no_calls
             {| status_code := 200;
                body_json := Some (VDict {[ lit "status" := VStr (lit "error");
                                            lit "results" := VList [sample_article] ]}) |}
             {[ lit "status" := VStr (lit "error");
                lit "results" := VList [sample_article] ]}
             eq_refl eq_refl eq_refl).
  reflexivity.
Defined.

(** X5. A body that is not JSON, or JSON that is not an object, is
    absorbed by both fetchers: they return the empty list. *)
Theorem fetch_absorbs_malformed_body :
  forall (E : env) (ints : str) (t : trace) (ra rf : response),
  requests_get E (search_request E (app_query ints)) = Return ra ->
  requests_get E (search_request E (flask_query ints)) = Return rf ->
  no_object (body_json ra) = true ->
  no_object (body_json rf) = true ->
  fst (App.fetch_news_articles E ints t) = Return (VList [])
  /\ fst (FlaskApi.fetch_news_articles E ints t) = Return (VList []).
Proof.
  intros E ints t ra rf Ha Hf Hba Hbf. split.
  - unfold App.fetch_news_articles, requests_get_call.
    unfold search_request, app_query in Ha.
    run_monad. rewrite Ha. run_monad.
    destruct (is_error_status ra); [reflexivity|].
    destruct (body_json ra) as [[| | | | |d]|]; try discriminate; reflexivity.
  - unfold FlaskApi.fetch_news_articles, requests_get_call.
    unfold search_request, flask_query in Hf.
    run_monad. rewrite Hf. run_monad.
    destruct (is_error_status rf); [reflexivity|].
    destruct (body_json rf) as [[| | | | |d]|]; try discriminate; reflexivity.
Qed.

Lemma fetch_absorbs_malformed_body_witness :
  fst (App.fetch_news_articles
         {| NEWS_API_KEY := lit "k"; GOOGLE_API_KEY := lit "g";
            requests_get := fun _ => Return {| status_code := 200; body_json := None |};
            model_new := Return tt;
            model_invoke := fun _ => Return (lit "## pick");
            format_other := fun _ => lit "?" |} (lit "ai") no_calls)
  = Return (VList []).
Proof.
  eapply (fetch_absorbs_malformed_body _ (lit "ai") no_calls
            {| status_code := 200; body_json := None |}
            {| status_code := 200; body_json := None |}); reflexivity.
Defined.

(** * Further properties of the ranker *)

Section RankerRuns.

Implicit Types (E : env) (t : trace) (input : RankInput) (art : gmap str value).

Lemma flask_article_text_sliceable E art t :
  sliceable (description_of art) = true ->
  exists text, FlaskApi.article_text E art t = (Return text, t).
Proof.
  unfold description_of, FlaskApi.article_text, FlaskApi.slice_200.
  destruct (default (VStr empty_str) (art !! lit "description"));
    try discriminate; intros _; run_monad; eauto.
Qed.

Lemma flask_article_text_unsliceable E art t :
  unsliceable (description_of art) = true ->
  FlaskApi.article_text E art t
  = (Raise (TypeError (not_subscriptable (description_of art))), t).
Proof.
  unfold description_of, FlaskApi.article_text, FlaskApi.slice_200.
  destruct (default (VStr empty_str) (art !! lit "description"));
    try discriminate; reflexivity.
Qed.

(** Rendering stops at the first description that cannot be sliced. *)
Lemma flask_render_raises E (arts : list (gmap str value)) t v :
  first_unsliceable arts = Some v -> unsliceable v = true ->
  for_each (FlaskApi.article_text E) arts t
  = (Raise (TypeError (not_subscriptable v)), t).
Proof.
  induction arts as [|art arts IH]; [discriminate|].
  cbn [first_unsliceable for_each]. unfold mbind, M_bind.
  destruct (sliceable (description_of art)) eqn:Hs; intros Hfirst Hv.
  - destruct (flask_article_text_sliceable E art t Hs) as [text ->].
    now rewrite (IH Hfirst Hv).
  - inversion Hfirst; subst v.
    now rewrite (flask_article_text_unsliceable E art t Hv).
Qed.

Lemma prompt_contains_interests_app ints text :
  contains (App.prompt_of ints text) ints = true.
Proof.
  apply contains_infix. unfold App.prompt_of.
  eexists (nl ++ lit "**User Interests**: "), _.
  rewrite <- !app_assoc. reflexivity.
Qed.

Lemma prompt_contains_interests_flask ints text :
  contains (FlaskApi.prompt_of ints text) ints = true.
Proof.
  apply contains_infix. unfold FlaskApi.prompt_of.
  eexists (nl ++ lit "**User Interests**: "), _.
  rewrite <- !app_assoc. reflexivity.
Qed.

End RankerRuns.

(** X6. With at least one article, a model that can be built and a model
    call that answers, each ranker makes exactly one model call and
    returns the answer as it is; the prompt of that call contains the
    interests string. *)
Theorem rank_success :
  forall (E : env) (input : RankInput) (t : trace) (content : str),
  articles input <> [] ->
  model_new E = Return tt ->
  (model_invoke E (app_prompt E input) = Return content ->
   App.rank_articles E input t
   = (Return content, add_model (app_prompt E input) t)
   /\ contains (app_prompt E input) (interests input) = true)
  /\ (forall texts,
        for_each (FlaskApi.article_text E) (take 5 (articles input)) t
        = (Return texts, t) ->
        model_invoke E (flask_prompt input texts) = Return content ->
        FlaskApi.rank_articles E input t
        = (Return content, add_model (flask_prompt input texts) t)
        /\ contains (flask_prompt input texts) (interests input) = true).
Proof.
  intros E input t content Hne Hnew. split.
  - intros Hcall. split; [|apply prompt_contains_interests_app].
    unfold App.rank_articles, model_invoke_call.
    destruct (articles input) as [|a l] eqn:Harts; [congruence|].
    run_monad. rewrite Hnew. run_monad.
    unfold app_prompt in *. rewrite Harts in *. now rewrite Hcall.
  - intros texts Htexts Hcall. split; [|apply prompt_contains_interests_flask].
    unfold FlaskApi.rank_articles, model_invoke_call.
    destruct (articles input) as [|a l] eqn:Harts; [congruence|].
    run_monad. rewrite Hnew. run_monad. rewrite Htexts.
    unfold flask_prompt in Hcall. now rewrite Hcall.
Qed.

Lemma rank_success_witness :
  App.rank_articles env_ok sample_input no_calls
  = (Return (lit "## pick"), add_model (app_prompt env_ok sample_input) no_calls).
Proof.
  apply (rank_success env_ok sample_input no_calls (lit "## pick")).
  - discriminate.
  - reflexivity.
  - reflexivity.
Defined.

(** X7. [flask_api.py]: when, among the first five articles, the first
    description that cannot be sliced is null, a boolean or a number, the
    slice [[:200]] raises [TypeError], so the ranker returns the failure
    string with that error's message ("'NoneType' object is not
    subscriptable" for null) and makes no model call.  [app.py], which does
    not slice, calls the model on the same input. *)
Theorem flask_rank_unsliceable_description :
  forall (E : env) (input : RankInput) (t : trace) (v : value),
  model_new E = Return tt ->
  first_unsliceable (take 5 (articles input)) = Some v ->
  unsliceable v = true ->
  FlaskApi.rank_articles E input t
  = (Return (lit "Failed to generate recommendations due to: "
             ++ lit "'" ++ type_name v ++ lit "' object is not subscriptable"), t)
  /\ model_calls (snd (App.rank_articles E input t))
     = model_calls t ++ [app_prompt E input].
Proof.
  intros E input t v Hnew Hfirst Hv.
  assert (Hne : articles input <> []).
  { intros Hnil. rewrite Hnil in Hfirst. discriminate. }
  split.
  - unfold FlaskApi.rank_articles.
    destruct (articles input) as [|a l] eqn:Harts; [congruence|].
    run_monad. rewrite Hnew. run_monad.
    now rewrite (flask_render_raises E _ t v Hfirst Hv).
  - unfold App.rank_articles, model_invoke_call, app_prompt.
    destruct (articles input) as [|a l] eqn:Harts; [congruence|].
    run_monad. rewrite Hnew. run_monad.
    destruct (model_invoke E _); reflexivity.
Qed.

Lemma flask_rank_unsliceable_description_witness :
  FlaskApi.rank_articles env_ok
    {| articles := [ {[ lit "title" := VStr (lit "t"); lit "description" := VNone ]} ];
       interests := lit "ai" |} no_calls
  = (Return (lit "Failed to generate recommendations due to: 'NoneType' object is not subscriptable"),
     no_calls).
Proof.
  apply (flask_rank_unsliceable_description env_ok
           {| articles := [ {[ lit "title" := VStr (lit "t"); lit "description" := VNone ]} ];
              interests := lit "ai" |} no_calls VNone); reflexivity.
Defined.

Section RankerBounds.

Implicit Types (E : env) (t : trace) (art : gmap str value).

Lemma flask_article_text_truncated E art :
  FlaskApi.article_text E (truncate_description art) = FlaskApi.article_text E art.
Proof.
  unfold truncate_description.
  destruct (art !! lit "description") as [[| | |d| |]|] eqn:Hd; try reflexivity.
  unfold FlaskApi.article_text.
  rewrite lookup_insert_eq, !lookup_insert_ne by discriminate.
  rewrite Hd. cbn [default from_option id FlaskApi.slice_200].
  now rewrite take_take, Nat.min_id.
Qed.

Lemma for_each_map_ext {A B} (f : A -> M B) (g : A -> A) (l : list A) :
  (forall a, f (g a) = f a) -> for_each f (map g l) = for_each f l.
Proof.
  intros Hfg. induction l as [|a l IH]; [reflexivity|].
  cbn [map for_each]. now rewrite Hfg, IH.
Qed.

End RankerBounds.

(** X8. What reaches the model is bounded.  [app.py] ranks a batch as it
    ranks the batch's first ten articles.  [flask_api.py] ranks a batch as
    it ranks the batch's first five articles with every string description
    cut to its first 200 characters. *)
Theorem rank_input_bounds :
  forall (E : env) (arts : list (gmap str value)) (ints : str) (t : trace),
  App.rank_articles E {| articles := arts; interests := ints |} t
  = App.rank_articles E {| articles := take 10 arts; interests := ints |} t
  /\ FlaskApi.rank_articles E {| articles := arts; interests := ints |} t
     = FlaskApi.rank_articles E
         {| articles := map truncate_description (take 5 arts); interests := ints |} t.
Proof.
  intros E arts ints t. split.
  - destruct arts as [|a l]; [reflexivity|].
    unfold App.rank_articles. cbn [articles interests firstn].
    change (a :: take 9 l) with (take 10 (a :: l)).
    now rewrite take_take.
  - destruct arts as [|a l]; [reflexivity|].
    unfold FlaskApi.rank_articles. cbn [articles interests firstn map].
    change (truncate_description a :: map truncate_description (take 4 l))
      with (map truncate_description (take 5 (a :: l))).
    rewrite <- fmap_take, take_take. cbn [Nat.min].
    change (truncate_description a :: (truncate_description <$> take 4 l))
      with (map truncate_description (a :: take 4 l)).
    now rewrite (for_each_map_ext _ _ _ (flask_article_text_truncated E)).
Qed.
